(** * Stitch Cafe VK bot: order generation, special orders and the
      Long Poll loop of [vk_lp_main.py], embedded and verified.

    The Python code is embedded shallowly.  Python [int] is [Z], [str] is a
    list of code points, dictionaries are [gmap]s or association lists, and
    code that can raise returns an [outcome].  A [while] loop whose
    termination is not evident from its shape takes a fuel argument and
    answers [Diverged] when the fuel is used up. *)

From Stdlib Require Import ZArith Lia.
From stdpp Require Import base option list gmap strings pretty sorting.

Local Open Scope Z_scope.

(** ** Python values *)

(** A Python [str]: the sequence of its Unicode code points. *)
Abbreviation pystr := (list N).

(** An ASCII literal of the source as a [pystr]. *)
Definition lit (s : string) : pystr :=
  Ascii.N_of_ascii <$> String.list_ascii_of_string s.

(** The exceptions the modelled code can meet. *)
Inductive exn :=
  | KeyError | IndexError | TypeError | AttributeError | ValueError
  | RuntimeError | RequestException | JSONDecodeError | OSError.

#[global] Instance exn_eq_dec : EqDecision exn.
Proof. solve_decision. Defined.

(** The result of running a piece of Python: a value, a raised exception,
    or a loop that used up its fuel. *)
Inductive outcome (A : Type) :=
  | Ret (a : A)
  | Raise (e : exn)
  | Diverged.
Arguments Ret {A} a.
Arguments Raise {A} e.
Arguments Diverged {A}.

Definition obind {A B} (m : outcome A) (k : A -> outcome B) : outcome B :=
  match m with
  | Ret a => k a
  | Raise e => Raise e
  | Diverged => Diverged
  end.

(** A dish of the catalog: [(name, crosses)]. *)
Abbreviation dish := (pystr * Z)%type.

(** [sum(c for (_, c) in dishes)] *)
Definition sum_crosses (dishes : list dish) : Z :=
  foldr (fun d acc => d.2 + acc) 0 dishes.

(** ** The randomness source

    The module [random] is modelled by the stream of raw draws it will
    produce; [_randbelow n] consumes one draw. *)
Record rng := Rng { draws : nat -> nat; cursor : nat }.

Definition randbelow (n : nat) (g : rng) : nat * rng :=
  ((draws g (cursor g) mod n)%nat, Rng (draws g) (S (cursor g))).

(** [random.choice(seq)]: [IndexError] on an empty sequence. *)
Definition random_choice {A} (seq : list A) (g : rng) : outcome (A * rng) :=
  if decide (length seq = 0%nat) then Raise IndexError
  else
    let '(i, g') := randbelow (length seq) g in
    match seq !! i with
    | Some x => Ret (x, g')
    | None => Raise IndexError
    end.

(** [x[i], x[j] = x[j], x[i]] *)
Definition swap {A} (x : list A) (i j : nat) : list A :=
  match x !! i, x !! j with
  | Some a, Some b => <[j:=a]> (<[i:=b]> x)
  | _, _ => x
  end.

(** [random.shuffle(x)]:
    [for i in reversed(range(1, len(x))): j = randbelow(i + 1); swap]. *)
Fixpoint shuffle_from {A} (i : nat) (x : list A) (g : rng) : list A * rng :=
  match i with
  | O => (x, g)
  | S i' =>
      let '(j, g') := randbelow (S i) g in
      shuffle_from i' (swap x i j) g'
  end.

Definition random_shuffle {A} (x : list A) (g : rng) : list A * rng :=
  shuffle_from (length x - 1)%nat x g.

(** ** The order generator *)

Section generator.
(** [data.dishes.DISHES_BY_LEVEL]: the catalog, dishes by unlock level. *)
Variable DISHES_BY_LEVEL : gmap Z (list dish).

(** [for lv in range(0, dish_level + 1):
       opened.extend(DISHES_BY_LEVEL.get(lv, []))] *)
Definition opened_pool (dish_level : Z) : list dish :=
  concat ((fun lv => default [] (DISHES_BY_LEVEL !! lv))
            <$> seqZ 0 (dish_level + 1)).

(** [DISHES_BY_LEVEL.get(dish_level, DISHES_BY_LEVEL[0])]: the default is
    evaluated first, so a catalog without level 0 raises [KeyError]. *)
Definition current_pool (dish_level : Z) : outcome (list dish) :=
  match DISHES_BY_LEVEL !! 0 with
  | None => Raise KeyError
  | Some l0 => Ret (default l0 (DISHES_BY_LEVEL !! dish_level))
  end.

(** One turn of [for d in pool]:
    [if d not in take and len(take) < 3: take.append(d)]. *)
Definition greedy_step (taken : list dish) (d : dish) : list dish :=
  if decide ((d ∉ taken) ∧ (length taken < 3)%nat) then taken ++ [d] else taken.

(** One run of the inner [for d in DISHES_BY_LEVEL[0]] of the backfill,
    with its [break]. *)
Fixpoint backfill_pass (l0 : list dish) (taken : list dish) : list dish :=
  match l0 with
  | [] => taken
  | d :: rest =>
      let taken' := if decide (d ∉ taken) then taken ++ [d] else taken in
      if decide (length taken' = 3%nat) then taken'
      else backfill_pass rest taken'
  end.

(** [while len(take) < 3: for d in DISHES_BY_LEVEL[0]: ...] *)
Fixpoint backfill (fuel : nat) (taken : list dish) : outcome (list dish) :=
  if decide (length taken < 3)%nat then
    match fuel with
    | O => Diverged
    | S fuel' =>
        match DISHES_BY_LEVEL !! 0 with
        | None => Raise KeyError
        | Some l0 => backfill fuel' (backfill_pass l0 taken)
        end
    end
  else Ret taken.

(** The list [take] when the loop [for d in pool] is over. *)
Definition greedy_phase (level : Z) (g : rng) : outcome (list dish * rng) :=
  let dish_level := Z.min level 3 in
  let opened := opened_pool dish_level in
  obind (current_pool dish_level) (fun pool0 =>
  obind (random_choice pool0 g) (fun '(cur, g1) =>
  let pool := filter (fun d => d ≠ cur) opened in
  let '(pool, g2) := random_shuffle pool g1 in
  Ret (foldl greedy_step [cur] pool, g2))).

Definition generate_regular_order (fuel : nat) (level : Z) (g : rng)
  : outcome (list dish * rng) :=
  obind (greedy_phase level g) (fun '(taken, g2) =>
  obind (backfill fuel taken) (fun taken =>
  Ret (take 3 taken, g2))).

End generator.

(** ** JSON values and the Python operations applied to them

    What [resp.json()] and [json.loads] return.  A JSON object is the list
    of the items of the resulting [dict]; its keys are distinct.  Numbers
    with a fraction are not modelled. *)
#[warnings="-register-all"]
Inductive json :=
  | JNull
  | JBool (b : bool)
  | JInt (z : Z)
  | JStr (s : pystr)
  | JArr (items : list json)
  | JObj (items : list (pystr * json)).

(** Truth value of a Python object. *)
Definition truthy (j : json) : bool :=
  match j with
  | JNull => false
  | JBool b => b
  | JInt z => bool_decide (z ≠ 0)
  | JStr s => bool_decide (s ≠ [])
  | JArr l => bool_decide (l ≠ [])
  | JObj kvs => bool_decide (kvs ≠ [])
  end.

(** [a or b] *)
Definition py_or (a b : json) : json := if truthy a then a else b.

(** [d[key]] of a dictionary given by its items. *)
Fixpoint lookup_key (key : pystr) (kvs : list (pystr * json)) : option json :=
  match kvs with
  | [] => None
  | (k, v) :: rest => if decide (k = key) then Some v else lookup_key key rest
  end.

(** [obj.get(key, dflt)]: only a [dict] has the method. *)
Definition py_get (obj : json) (key : pystr) (dflt : json) : outcome json :=
  match obj with
  | JObj kvs => Ret (default dflt (lookup_key key kvs))
  | _ => Raise AttributeError
  end.

(** [obj[key]] with a string key. *)
Definition py_getitem (obj : json) (key : pystr) : outcome json :=
  match obj with
  | JObj kvs =>
      match lookup_key key kvs with
      | Some v => Ret v
      | None => Raise KeyError
      end
  | _ => Raise TypeError
  end.

(** [j == key] for a string [key]. *)
Definition is_str (key : pystr) (j : json) : bool :=
  match j with
  | JStr s => bool_decide (s = key)
  | _ => false
  end.

(** [p] is a prefix of [s]. *)
Fixpoint is_prefix (p s : pystr) : bool :=
  match p, s with
  | [], _ => true
  | _ :: _, [] => false
  | a :: p', b :: s' => bool_decide (a = b) && is_prefix p' s'
  end.

(** [p in s] on strings: [p] occurs as a substring of [s]. *)
Fixpoint is_substring (p s : pystr) : bool :=
  is_prefix p s ||
  match s with
  | [] => false
  | _ :: s' => is_substring p s'
  end.

(** [key in obj] with a string key: key of a [dict], element of a [list],
    substring of a [str]; the other JSON values are not containers. *)
Definition py_contains (key : pystr) (obj : json) : outcome bool :=
  match obj with
  | JObj kvs => Ret (bool_decide (is_Some (lookup_key key kvs)))
  | JArr l => Ret (existsb (is_str key) l)
  | JStr s => Ret (is_substring key s)
  | _ => Raise TypeError
  end.

(** [for x in obj]: the elements the loop visits. *)
Definition py_iter (obj : json) : outcome (list json) :=
  match obj with
  | JArr l => Ret l
  | JObj kvs => Ret ((fun kv => JStr kv.1) <$> kvs)
  | JStr s => Ret ((fun c => JStr [c]) <$> s)
  | _ => Raise TypeError
  end.

(** [isinstance(x, int)]; [bool] is a subclass of [int]. *)
Definition as_int (j : json) : option Z :=
  match j with
  | JInt z => Some z
  | JBool b => Some (Z.b2z b)
  | _ => None
  end.

(** [x == n] for an integer [n]. *)
Definition py_eq_int (j : json) (n : Z) : bool :=
  match as_int j with
  | Some z => bool_decide (z = n)
  | None => false
  end.

(** [str(n)] for an [int]. *)
Definition str_of_int (n : Z) : pystr := lit (pretty n).

(** [str(x)].  The rendering of a list or of a dictionary is cut down to
    its brackets: the code only compares it with command names and prints
    it. *)
Definition py_str (j : json) : pystr :=
  match j with
  | JNull => lit "None"
  | JBool true => lit "True"
  | JBool false => lit "False"
  | JInt z => str_of_int z
  | JStr s => s
  | JArr _ => lit "[]"
  | JObj _ => lit "{}"
  end.

(** [str.isspace] for one character. *)
Definition py_isspace (c : N) : bool :=
  ((9 <=? c) && (c <=? 13) || (28 <=? c) && (c <=? 32)
   || (c =? 133) || (c =? 160) || (c =? 5760)
   || (8192 <=? c) && (c <=? 8202)
   || (c =? 8232) || (c =? 8233) || (c =? 8239) || (c =? 8287)
   || (c =? 12288))%N.

Fixpoint lstrip (s : pystr) : pystr :=
  match s with
  | [] => []
  | c :: s' => if py_isspace c then lstrip s' else s
  end.

(** [s.strip()] *)
Definition strip (s : pystr) : pystr := reverse (lstrip (reverse (lstrip s))).

(** [s.lower()].  Only the letters [A-Z] are mapped: the result is compared
    with ASCII command names alone, and no other character lowers to a
    letter of theirs. *)
Definition lower (s : pystr) : pystr :=
  (fun c => if ((65 <=? c) && (c <=? 90))%N then (c + 32)%N else c) <$> s.

(** [s.startswith(p)] *)
Definition startswith (s p : pystr) : bool := is_prefix p s.

(** ** Texts, requests and the state of the world *)

(** [vk_utils.format_vk_user_mention]: [f"[id{user_id}|{first_name}]"] *)
Definition format_vk_user_mention (user_id : Z) (first_name : pystr) : pystr :=
  lit "[id" ++ str_of_int user_id ++ lit "|" ++ first_name ++ lit "]".

(** One [STATS_LINE] of the admin table; the level stands for its title. *)
Record stats_line := StatsLine {
  sl_num : Z; sl_name : pystr; sl_orders : Z; sl_level : Z;
  sl_student : bool; sl_critic : bool; sl_dirty : bool; sl_chef : bool }.

(** The messages the bot sends.  The templates of [data.texts] are opaque:
    a text is the template it was rendered from with its arguments. *)
Inductive text :=
  | ALREADY_HAS_ORDER (name : pystr)
  | ADMIN_ONLY (name : pystr)
  | EMPTY_DB
  | TOP_SENT_DM
  | TOP_DM_FAIL (name : pystr)
  | STATS (lines : list stats_line)
  | NEW_ORDER_MESSAGE (name : pystr) (order_number : Z)
      (dishes : list dish) (total : Z)
  | SPECIAL_ORDER_TEXT (text_template : pystr) (name : pystr)
      (crosses : option Z) (dishes : list dish)
  | UNKNOWN_COMMAND.

(** A button of the keyboard: label, command of its payload, colour. *)
Record button := Button { label : string; cmd_payload : pystr; color : pystr }.

(** [build_main_keyboard()] *)
Definition build_main_keyboard : list (list button) :=
  [ [ Button "🧾 Новый заказ" (lit "new") (lit "primary") ];
    [ Button "📋 Мой заказ" (lit "my") (lit "secondary");
      Button "✅ Готово" (lit "done") (lit "positive") ] ].

(** The HTTP exchanges of the bot. *)
Inductive request :=
  | MessagesSend (peer_id : Z) (random_id : Z) (message : text)
      (keyboard : option (list (list button)))
  | UsersGet (user_ids : Z)
  | GroupsGetLongPollServer (group_id : Z)
  | LongPollCheck (server key ts : json) (wait : Z).

Inductive log_entry :=
  | LogSendFailed (peer_id : Z) (e : exn)
  | LogUserInfoFailed (user_id : Z) (e : exn)
  | LogObtainedServer
  | LogPollBroken (e : exn)
  | LogServerFailed (e : exn)
  | LogHeartbeat (cycle : Z)
  | LogFailedCode (failed : json)
  | LogNewMessage (from_id peer_id : Z) (text : pystr).

(** ** The persistence store

    The module [database] is not part of the sources.  Its state is the
    table [users], one row per user id; [handle_reset] wipes everything
    with [DELETE FROM users], so the orders live in that row too. *)

Record active_order := ActiveOrder {
  ao_dishes : list dish; ao_tag : option pystr }.

Record last_order := LastOrder {
  lo_dishes : list dish; lo_crosses : Z; lo_tag : option pystr }.

Record user_row := UserRow {
  r_first_name : pystr;
  r_level : Z;
  r_total_orders : Z;
  r_has_student_done : Z;
  r_has_critic_done : Z;
  r_has_dirty_plate_done : Z;
  r_has_second_chef_done : Z;
  r_active : option active_order;
  r_last : option last_order }.

(** The [dict] that [fetch_user] returns. *)
Record user := User { user_id : Z; row : user_row }.

(** Modelled from the spec: [database.fetch_user], fetch-or-create of a
    user by id ("created on first observed interaction, upsert-on-read";
    a fresh user is at level 0 with no completed order, no flag and no
    order). *)
Definition new_user_row (first_name : pystr) : user_row :=
  UserRow first_name 0 0 0 0 0 0 None None.

Definition fetch_user (db : gmap Z user_row) (uid : Z) (first_name : pystr)
  : user * gmap Z user_row :=
  match db !! uid with
  | Some r => (User uid r, db)
  | None => (User uid (new_user_row first_name),
             <[uid := new_user_row first_name]> db)
  end.

(** Modelled from the spec: [database.get_active_order], the Active Order
    of a user, if any. *)
Definition get_active_order (db : gmap Z user_row) (uid : Z)
  : option active_order := db !! uid ≫= r_active.

(** Modelled from the spec: [database.get_last_order], the Last Completed
    Order of a user, if any. *)
Definition get_last_order (db : gmap Z user_row) (uid : Z)
  : option last_order := db !! uid ≫= r_last.

(** Modelled from the spec: [database.save_active_order], which sets the
    Active Order of a user. *)
Definition save_active_order (db : gmap Z user_row) (uid : Z)
    (dishes : list dish) (tag : option pystr) : gmap Z user_row :=
  alter (fun r =>
    UserRow (r_first_name r) (r_level r) (r_total_orders r)
      (r_has_student_done r) (r_has_critic_done r)
      (r_has_dirty_plate_done r) (r_has_second_chef_done r)
      (Some (ActiveOrder dishes tag)) (r_last r)) uid db.

(** The world the bot runs in: the store, the randomness source, the
    remote side (what the [n]-th HTTP exchange answers), and the trace of
    what the bot did. *)
Record world := World {
  w_db : gmap Z user_row;
  w_random : rng;
  w_net : nat -> request -> exn + json;
  w_calls : list request;
  w_log : list log_entry;
  w_slept : list Z }.

(** A command of the bot: a result or an exception, and the new world. *)
Definition M (A : Type) : Type := world -> outcome A * world.

#[global] Instance M_ret : MRet M := fun A a w => (Ret a, w).
#[global] Instance M_bind : MBind M := fun A B k m w =>
  match m w with
  | (Ret a, w') => k a w'
  | (Raise e, w') => (Raise e, w')
  | (Diverged, w') => (Diverged, w')
  end.

Definition raise {A} (e : exn) : M A := fun w => (Raise e, w).

Definition lift {A} (o : outcome A) : M A := fun w => (o, w).

(** [try: body  except Exception as e: handler(e)] *)
Definition try_except {A} (body : M A) (handler : exn -> M A) : M A :=
  fun w =>
    match body w with
    | (Raise e, w') => handler e w'
    | r => r
    end.

Definition logger (entry : log_entry) : M unit := fun w =>
  (Ret tt, World (w_db w) (w_random w) (w_net w) (w_calls w)
             (w_log w ++ [entry]) (w_slept w)).

(** [time.sleep(seconds)] *)
Definition sleep (seconds : Z) : M unit := fun w =>
  (Ret tt, World (w_db w) (w_random w) (w_net w) (w_calls w)
             (w_log w) (w_slept w ++ [seconds])).

(** One HTTP exchange, up to the decoding of the body. *)
Definition http (req : request) : M json := fun w =>
  let w' := World (w_db w) (w_random w) (w_net w) (w_calls w ++ [req])
              (w_log w) (w_slept w) in
  match w_net w (length (w_calls w)) req with
  | inl e => (Raise e, w')
  | inr data => (Ret data, w')
  end.

Definition get_db : M (gmap Z user_row) := fun w => (Ret (w_db w), w).

Definition set_db (db : gmap Z user_row) : M unit := fun w =>
  (Ret tt, World db (w_random w) (w_net w) (w_calls w) (w_log w) (w_slept w)).

(** [random.randint(a, b)] *)
Definition randint (a b : Z) : M Z := fun w =>
  let g := w_random w in
  (Ret (a + Z.of_nat (draws g (cursor g)) `mod` (b - a + 1)),
   World (w_db w) (Rng (draws g) (S (cursor g))) (w_net w) (w_calls w)
     (w_log w) (w_slept w)).

#[global] Instance outcome_ret : MRet outcome := fun A a => Ret a.
#[global] Instance outcome_bind : MBind outcome := fun A B k m => obind m k.

(** ** Calls to the VK API *)

(** [vk_api_call(method, params)] *)
Definition vk_api_call (req : request) : M json :=
  data ← http req;
  has_error ← lift (py_contains (lit "error") data);
  if has_error : bool then
    err ← lift (py_getitem data (lit "error"));
    _ ← lift (py_get err (lit "error_code") JNull);
    _ ← lift (py_get err (lit "error_msg") JNull);
    raise RuntimeError
  else lift (py_getitem data (lit "response")).

(** [send_message(peer_id, text, keyboard)] *)
Definition send_message (peer_id : Z) (message : text)
    (keyboard : option (list (list button))) : M unit :=
  try_except
    (random_id ← randint 1 (2 ^ 31 - 1);
     _ ← vk_api_call (MessagesSend peer_id random_id message keyboard);
     mret tt)
    (fun e => logger (LogSendFailed peer_id e)).

(** The default first name, "Гость". *)
Definition GUEST : pystr := [1043; 1086; 1089; 1090; 1100]%N.

(** [get_user_first_name(user_id)].  A first name that is not a string is
    kept as its rendering. *)
Definition get_user_first_name (uid : Z) : M pystr :=
  try_except
    (resp ← vk_api_call (UsersGet uid);
     match resp with
     | JArr (first :: _) =>
         name ← lift (py_get first (lit "first_name") JNull);
         mret (py_str (py_or name (JStr GUEST)))
     | _ => mret GUEST
     end)
    (fun e => _ ← logger (LogUserInfoFailed uid e); mret GUEST).

(** ** New orders *)

(** The flags handed to [check_special_order]. *)
Record user_flags := UserFlags {
  has_student_done : Z; has_critic_done : Z;
  has_dirty_plate_done : Z; has_second_chef_done : Z }.

(** An [order_config] of [data.special_orders]: its optional ["type"], its
    ["text_template"] and, for a fixed-dish order, its ["dish"]. *)
Record order_config := OrderConfig {
  oc_type : option pystr; oc_text_template : pystr; oc_dish : option dish }.

(** [_order_index(total_orders)]: [(total_orders or 0) + 1] *)
Definition _order_index (total_orders : Z) : Z := total_orders + 1.

(** Truth value of [last_order.get("tag")]. *)
Definition tag_truthy (tag : option pystr) : bool :=
  match tag with
  | Some (_ :: _) => true
  | _ => false
  end.

(** [[(name, crosses * 2) for name, crosses in last_dishes]] *)
Definition double_dishes (dishes : list dish) : list dish :=
  (fun d => (d.1, d.2 * 2)) <$> dishes.

(** The [half_new_order] computation: the halved dishes with the first one
    adjusted, and the total that the text announces. *)
Definition half_new_order (dishes : list dish) : list dish * Z :=
  let total := sum_crosses dishes in
  let half_total := total / 2 in
  let half_dishes := (fun d => (d.1, Z.max 1 (d.2 / 2))) <$> dishes in
  let half_crosses := sum_crosses half_dishes in
  match half_dishes with
  | (name0, val0) :: rest =>
      if decide (half_crosses ≠ half_total) then
        let diff := half_total - half_crosses in
        ((name0, Z.max 1 (val0 + diff)) :: rest, half_total)
      else (half_dishes, half_crosses)
  | [] => (half_dishes, half_crosses)
  end.

(** [format_vk_user_mention(user_id, user.get("first_name") or first_name)] *)
Definition name_mention (u : user) (uid : Z) (first_name : pystr) : pystr :=
  format_vk_user_mention uid
    (if decide (r_first_name (row u) ≠ []) then r_first_name (row u)
     else first_name).

Section orders.
Variable DISHES_BY_LEVEL : gmap Z (list dish).
(** [data.special_orders.check_special_order] *)
Variable check_special_order :
  Z -> user_flags -> option (pystr * order_config).
(** Fuel of the backfill loop of the generator. *)
Variable fuel : nat.

Definition generate_order (level : Z) : M (list dish) := fun w =>
  match generate_regular_order DISHES_BY_LEVEL fuel level (w_random w) with
  | Ret (dishes, g) =>
      (Ret dishes,
       World (w_db w) g (w_net w) (w_calls w) (w_log w) (w_slept w))
  | Raise e => (Raise e, w)
  | Diverged => (Diverged, w)
  end.

Definition save_order (uid : Z) (dishes : list dish) (tag : option pystr)
  : M unit :=
  db ← get_db; set_db (save_active_order db uid dishes tag).

(** [last_order_was_special] once the first block of
    [_vk_new_order_logic] has run. *)
Definition last_order_was_special (u : user) (db : gmap Z user_row) : bool :=
  if decide (0 < r_total_orders (row u)) then
    match get_last_order db (user_id u) with
    | Some lo => tag_truthy (lo_tag lo)
    | None => false
    end
  else false.

(** The value of [special_result]. *)
Definition special_result (u : user) (db : gmap Z user_row)
  : option (pystr * order_config) :=
  if last_order_was_special u db then None
  else
    check_special_order (_order_index (r_total_orders (row u)))
      (UserFlags (r_has_student_done (row u)) (r_has_critic_done (row u))
         (r_has_dirty_plate_done (row u)) (r_has_second_chef_done (row u))).

(** The end of [_vk_new_order_logic], reached when no special order was
    produced: a regular order. *)
Definition regular_order (u : user) (name_mention : pystr) : M text :=
  dishes ← generate_order (r_level (row u));
  let total := sum_crosses dishes in
  let order_number := _order_index (r_total_orders (row u)) in
  _ ← save_order (user_id u) dishes None;
  mret (NEW_ORDER_MESSAGE name_mention order_number dishes total).

Definition _vk_new_order_logic (u : user) (uid : Z) (first_name : pystr)
  : M text :=
  db ← get_db;
  let name_mention := name_mention u uid first_name in
  match special_result u db with
  | Some (tag, order_config) =>
      let order_type := default (lit "regular") (oc_type order_config) in
      if decide (order_type = lit "double_previous") then
        match get_last_order db (user_id u) with
        | Some lo =>
            let doubled_dishes := double_dishes (lo_dishes lo) in
            let doubled_crosses := lo_crosses lo * 2 in
            _ ← save_order (user_id u) doubled_dishes (Some tag);
            mret (SPECIAL_ORDER_TEXT (oc_text_template order_config)
                    name_mention (Some doubled_crosses) [])
        | None => regular_order u name_mention
        end
      else if decide (order_type = lit "half_new_order") then
        dishes ← generate_order (r_level (row u));
        let '(half_dishes, half_crosses) := half_new_order dishes in
        _ ← save_order (user_id u) half_dishes (Some tag);
        mret (SPECIAL_ORDER_TEXT (oc_text_template order_config)
                name_mention (Some half_crosses) half_dishes)
      else if decide (order_type = lit "regular") then
        match oc_dish order_config with
        | Some d =>
            _ ← save_order (user_id u) [d] (Some tag);
            mret (SPECIAL_ORDER_TEXT (oc_text_template order_config)
                    name_mention None [])
        | None => raise KeyError
        end
      else regular_order u name_mention
  | None => regular_order u name_mention
  end.

(** [handle_new(user_id, peer_id)] *)
Definition handle_new (uid peer_id : Z) : M unit :=
  first_name ← get_user_first_name uid;
  db ← get_db;
  let '(u, db') := fetch_user db uid first_name in
  _ ← set_db db';
  match get_active_order db' (user_id u) with
  | Some _ =>
      let name_mention := name_mention u uid first_name in
      send_message peer_id (ALREADY_HAS_ORDER name_mention)
        (Some build_main_keyboard)
  | None =>
      message ← _vk_new_order_logic u uid first_name;
      send_message peer_id message (Some build_main_keyboard)
  end.

End orders.

(** ** The admin statistics *)

(** [ORDER BY total_orders DESC, level DESC] *)
Definition stats_before (r1 r2 : user_row) : Prop :=
  r_total_orders r2 < r_total_orders r1
  ∨ (r_total_orders r1 = r_total_orders r2 ∧ r_level r2 ≤ r_level r1).

#[global] Instance stats_before_dec r1 r2 : Decision (stats_before r1 r2).
Proof. unfold stats_before. apply _. Defined.

(** The rows that the query of [handle_top] fetches. *)
Definition select_stats (db : gmap Z user_row) : list user_row :=
  merge_sort stats_before ((map_to_list db).*2).

(** The lines appended after [STATS_HEADER], numbered from [start]. *)
Fixpoint stats_lines (start : Z) (rows : list user_row) : list stats_line :=
  match rows with
  | [] => []
  | r :: rest =>
      StatsLine start (r_first_name r) (r_total_orders r) (r_level r)
        (bool_decide (r_has_student_done r ≠ 0))
        (bool_decide (r_has_critic_done r ≠ 0))
        (bool_decide (r_has_dirty_plate_done r ≠ 0))
        (bool_decide (r_has_second_chef_done r ≠ 0))
      :: stats_lines (start + 1) rest
  end.

Section admin.
(** [config.ADMIN_IDS] *)
Variable ADMIN_IDS : list pystr.

(** Modelled from the spec: [utils.is_admin], the caller identity
    string-matched against the configured allow-list. *)
Definition is_admin (uid : pystr) : bool := bool_decide (uid ∈ ADMIN_IDS).

(** The [try] statement that [handle_top] holds twice, once per branch:
    the private message, then the acknowledgment in the conversation;
    [except Exception], the failure notice. *)
Definition send_to_admin (uid peer_id : Z) (message : text) : M unit :=
  try_except
    (_ ← send_message uid message None;
     if decide (peer_id ≠ uid) then send_message peer_id TOP_SENT_DM None
     else mret tt)
    (fun _ =>
       if decide (peer_id ≠ uid) then
         first_name ← get_user_first_name uid;
         send_message peer_id
           (TOP_DM_FAIL (format_vk_user_mention uid first_name)) None
       else mret tt).

(** [handle_top(user_id, peer_id)] *)
Definition handle_top (uid peer_id : Z) : M unit :=
  if negb (is_admin (str_of_int uid)) then
    first_name ← get_user_first_name uid;
    send_message peer_id
      (ADMIN_ONLY (format_vk_user_mention uid first_name)) None
  else
    db ← get_db;
    let rows := select_stats db in
    match rows with
    | [] => send_to_admin uid peer_id EMPTY_DB
    | _ :: _ => send_to_admin uid peer_id (STATS (stats_lines 1 rows))
    end.

End admin.

(** ** The Long Poll loop *)

Definition LONGPOLL_WAIT : Z := 15.
Definition HEARTBEAT_EVERY : Z := 20.

(** The variables [server], [key], [ts] and [cycle] of [longpoll_loop]. *)
Record poll_state := PollState {
  server : json; key : json; ts : json; cycle : Z }.

(** The handlers the loop can call. *)
Inductive command :=
  | CmdNew | CmdMy | CmdDone | CmdStart | CmdTop10 | CmdTop | CmdReset.

(** What the loop does with one update. *)
Inductive action :=
  | Invoke (c : command) (from_id peer_id : Z)
  | ReplyUnknown (peer_id : Z)
  | Ignore.

(** The chain [if cmd == "new" or lower.startswith("/new"): ...]. *)
Definition route (cmd : option pystr) (text : pystr) (from_id peer_id : Z)
  : action :=
  let lower := lower text in
  let cmd_is name := bool_decide (cmd = Some (lit name)) in
  if cmd_is "new" || startswith lower (lit "/new") then
    Invoke CmdNew from_id peer_id
  else if cmd_is "my" || startswith lower (lit "/my") then
    Invoke CmdMy from_id peer_id
  else if cmd_is "done" || startswith lower (lit "/done") then
    Invoke CmdDone from_id peer_id
  else if startswith lower (lit "/start") then Invoke CmdStart from_id peer_id
  else if startswith lower (lit "/top10") then Invoke CmdTop10 from_id peer_id
  else if startswith lower (lit "/top") then Invoke CmdTop from_id peer_id
  else if startswith lower (lit "/reset") then Invoke CmdReset from_id peer_id
  else if startswith lower (lit "/") then ReplyUnknown peer_id
  else Ignore.

(** [(msg.get("text") or "").strip()]: only a [str] has [strip]. *)
Definition message_text (msg : json) : outcome pystr :=
  t ← py_get msg (lit "text") JNull;
  match py_or t (JStr []) with
  | JStr s => Ret (strip s)
  | _ => Raise AttributeError
  end.

Section longpoll.
(** [GROUP_ID_INT] and [ALLOWED_PEER_ID_INT] *)
Variable GROUP_ID_INT : Z.
Variable ALLOWED_PEER_ID_INT : option Z.
(** [json.loads] on the payload of a button; [None] stands for
    [json.JSONDecodeError]. *)
Variable json_loads : pystr -> option json.
(** The command handlers, run by [asyncio.run]. *)
Variable handlers : command -> Z -> Z -> M unit.

(** [get_longpoll_server()] *)
Definition get_longpoll_server : M (json * json * json) :=
  resp ← vk_api_call (GroupsGetLongPollServer GROUP_ID_INT);
  server ← lift (py_getitem resp (lit "server"));
  key ← lift (py_getitem resp (lit "key"));
  ts ← lift (py_getitem resp (lit "ts"));
  _ ← logger LogObtainedServer;
  mret (server, key, ts).

(** The tests an update passes before it is routed: the message with its
    stripped text, its sender and its conversation, or [None] when the
    loop meets a [continue].  A [bool] passes [isinstance(x, int)] as
    well; such an id is handed on as the integer it equals
    ([True == 1]), so what the loop prints or sends for it is outside the
    model. *)
Definition accept_update (upd : json)
  : outcome (option (json * pystr * Z * Z)) :=
  ty ← py_get upd (lit "type") JNull;
  if negb (is_str (lit "message_new") ty) then Ret None
  else
    obj ← py_get upd (lit "object") (JObj []);
    msg ← py_get obj (lit "message") (JObj []);
    text ← message_text msg;
    if decide (text = []) then Ret None
    else
      from_id ← py_get msg (lit "from_id") JNull;
      peer_id ← py_get msg (lit "peer_id") JNull;
      match as_int from_id, as_int peer_id with
      | Some f, Some p =>
          match ALLOWED_PEER_ID_INT with
          | Some allowed =>
              if decide (p ≠ allowed) then Ret None
              else Ret (Some (msg, text, f, p))
          | None => Ret (Some (msg, text, f, p))
          end
      | _, _ => Ret None
      end.

(** The value of [cmd] read from the payload of a button. *)
Definition payload_cmd (msg : json) : outcome (option pystr) :=
  payload_raw ← py_get msg (lit "payload") JNull;
  match payload_raw with
  | JStr raw =>
      match json_loads raw with
      | Some (JObj kvs) =>
          Ret (Some (lower (py_str
            (py_or (default JNull (lookup_key (lit "cmd") kvs)) (JStr [])))))
      | _ => Ret None
      end
  | _ => Ret None
  end.

Definition run_action (a : action) : M unit :=
  match a with
  | Invoke c from_id peer_id => handlers c from_id peer_id
  | ReplyUnknown peer_id =>
      send_message peer_id UNKNOWN_COMMAND (Some build_main_keyboard)
  | Ignore => mret tt
  end.

(** The body of [for upd in updates]. *)
Definition process_update (upd : json) : M unit :=
  accepted ← lift (accept_update upd);
  match accepted with
  | None => mret tt
  | Some (msg, text, from_id, peer_id) =>
      _ ← logger (LogNewMessage from_id peer_id text);
      cmd ← lift (payload_cmd msg);
      run_action (route cmd text from_id peer_id)
  end.

Fixpoint process_updates (updates : list json) : M unit :=
  match updates with
  | [] => mret tt
  | upd :: rest => _ ← process_update upd; process_updates rest
  end.

(** The exceptions that the [except] clause of the poll catches:
    [requests.RequestException] and [json.JSONDecodeError]. *)
Definition poll_error (e : exn) : bool :=
  match e with
  | RequestException | JSONDecodeError => true
  | _ => false
  end.

(** The [except] clause of the poll: back off, then try to fetch a new
    server, key and ts. *)
Definition recover (st : poll_state) (e : exn) : M poll_state :=
  _ ← logger (LogPollBroken e);
  _ ← sleep 3;
  try_except
    ('(s, k, t) ← get_longpoll_server; mret (PollState s k t (cycle st)))
    (fun e2 => _ ← logger (LogServerFailed e2); _ ← sleep 5; mret st).

(** The iteration after a poll that answered [data]. *)
Definition after_poll (st : poll_state) (data : json) : M poll_state :=
  let cycle := cycle st + 1 in
  _ ← (if decide (cycle `mod` HEARTBEAT_EVERY = 0)
       then logger (LogHeartbeat cycle) else mret tt);
  has_failed ← lift (py_contains (lit "failed") data);
  if has_failed : bool then
    failed ← lift (py_getitem data (lit "failed"));
    _ ← logger (LogFailedCode failed);
    if py_eq_int failed 1 then
      ts ← lift (py_get data (lit "ts") (ts st));
      mret (PollState (server st) (key st) ts cycle)
    else
      '(s, k, t) ← get_longpoll_server;
      mret (PollState s k t cycle)
  else
    ts ← lift (py_get data (lit "ts") (ts st));
    updates ← lift (py_get data (lit "updates") (JArr []));
    items ← lift (py_iter updates);
    _ ← process_updates items;
    mret (PollState (server st) (key st) ts cycle).

(** One iteration of [while True]: the state for the next one, or the
    exception that leaves the loop. *)
Definition loop_body (st : poll_state) : M poll_state := fun w =>
  match http (LongPollCheck (server st) (key st) (ts st) LONGPOLL_WAIT) w with
  | (Ret data, w1) => after_poll st data w1
  | (Raise e, w1) =>
      if poll_error e then recover st e w1 else (Raise e, w1)
  | (Diverged, w1) => (Diverged, w1)
  end.

(** The first [n] iterations of the loop. *)
Fixpoint poll_loop (n : nat) (st : poll_state) : M poll_state :=
  match n with
  | O => mret st
  | S n' => st' ← loop_body st; poll_loop n' st'
  end.

(** [longpoll_loop()], observed for [n] iterations: [Ret] is a loop that
    is still running, [Raise] a loop that an exception has ended. *)
Definition longpoll_loop (n : nat) : M poll_state :=
  '(s, k, t) ← get_longpoll_server;
  poll_loop n (PollState s k t 0).

End longpoll.

(** ** Sample configurations

    Small catalogs and a randomness source on which the examples and the
    concrete instances of the theorems are evaluated. *)

Definition sample_catalog : gmap Z (list dish) :=
  <[0 := [(lit "tea", 10); (lit "bun", 20); (lit "jam", 30)]]>
    (<[1 := [(lit "pie", 40)]]> ∅).

Definition two_dish_catalog : gmap Z (list dish) :=
  {[ 0 := [(lit "tea", 10); (lit "bun", 20)] ]}.

Definition one_cross_catalog : gmap Z (list dish) :=
  {[ 0 := [(lit "tea", 1); (lit "bun", 1); (lit "jam", 1)] ]}.

(** A catalog whose level 1 offers the tea of level 0 again, for more
    crosses. *)
Definition same_name_catalog : gmap Z (list dish) :=
  <[0 := [(lit "tea", 10); (lit "bun", 20)]]>
    (<[1 := [(lit "tea", 15)]]> ∅).

Definition sample_rng : rng := Rng (fun n => n) 0.

(** A remote side that answers every request with [{"response": 1}]. *)
Definition friendly_net : nat -> request -> exn + json :=
  fun _ _ => inr (JObj [(lit "response", JInt 1)]).

(** A remote side on which private messages to user 1 fail. *)
Definition no_dm_net : nat -> request -> exn + json :=
  fun _ req =>
    match req with
    | MessagesSend 1 _ _ _ => inl RequestException
    | _ => inr (JObj [(lit "response", JInt 1)])
    end.

(** A remote side for the Long Poll loop: the server is handed out at
    startup, the first poll answers [{"failed": 2}], and the request for a
    new server then fails. *)
Definition expired_key_net : nat -> request -> exn + json :=
  fun n req =>
    match n with
    | O => inr (JObj [(lit "response",
                       JObj [(lit "server", JStr (lit "https://lp.vk.com"));
                             (lit "key", JStr (lit "k1"));
                             (lit "ts", JStr (lit "1"))])])
    | 1%nat => inr (JObj [(lit "failed", JInt 2)])
    | _ => inl RequestException
    end.

Definition sample_world (db : gmap Z user_row)
    (net : nat -> request -> exn + json) : world :=
  World db sample_rng net [] [] [].

(** A user at level 0 who has completed four orders, the last of them a
    regular order of two dishes. *)
Definition sample_row : user_row :=
  UserRow (lit "Ann") 0 4 0 0 0 0 None
    (Some (LastOrder [(lit "tea", 10); (lit "bun", 25)] 35 None)).

(** The same user, working on an order. *)
Definition busy_row : user_row :=
  UserRow (lit "Ann") 0 4 0 0 0 0
    (Some (ActiveOrder [(lit "tea", 10)] None))
    (Some (LastOrder [(lit "tea", 10); (lit "bun", 25)] 35 None)).

(** The same user, whose last completed order was a special one. *)
Definition tagged_row : user_row :=
  UserRow (lit "Ann") 0 4 0 0 0 0 None
    (Some (LastOrder [(lit "tea", 10)] 10 (Some (lit "student")))).

(** Special-order rules that always ask for one directive. *)
Definition always_half : Z -> user_flags -> option (pystr * order_config) :=
  fun _ _ =>
    Some (lit "critic",
          OrderConfig (Some (lit "half_new_order")) (lit "half") None).

Definition always_double : Z -> user_flags -> option (pystr * order_config) :=
  fun _ _ =>
    Some (lit "second_chef",
          OrderConfig (Some (lit "double_previous")) (lit "double") None).

(** Handlers that do nothing, and no decoding of payloads. *)
Definition idle_handlers : command -> Z -> Z -> M unit :=
  fun _ _ _ => mret tt.

Definition no_json : pystr -> option json := fun _ => None.

(** Handlers that fail, as a handler does when the store is out of
    reach. *)
Definition failing_handlers : command -> Z -> Z -> M unit :=
  fun _ _ _ => raise OSError.

(** A decoder under which every payload is that of the "new order"
    button. *)
Definition new_button_json : pystr -> option json :=
  fun _ => Some (JObj [(lit "cmd", JStr (lit "new"))]).

(** A message from user 7 in conversation 2000000001, sent by a button,
    and the [message_new] update that carries it. *)
Definition message_dict (text : pystr) : json :=
  JObj [(lit "text", JStr text);
        (lit "from_id", JInt 7);
        (lit "peer_id", JInt 2000000001);
        (lit "payload", JStr (lit "button"))].

Definition message_update (text : pystr) : json :=
  JObj [(lit "type", JStr (lit "message_new"));
        (lit "object", JObj [(lit "message", message_dict text)])].

(** A remote side whose first poll delivers the command [/new]. *)
Definition new_command_net : nat -> request -> exn + json :=
  fun n req =>
    match n with
    | O => inr (JObj [(lit "response",
                       JObj [(lit "server", JStr (lit "https://lp.vk.com"));
                             (lit "key", JStr (lit "k1"));
                             (lit "ts", JStr (lit "1"))])])
    | 1%nat => inr (JObj [(lit "ts", JStr (lit "2"));
                          (lit "updates", JArr [message_update (lit "/new")])])
    | _ => inl RequestException
    end.

(** ** Configuration ([config.py]) *)

(** [s.split(sep)] for a separator of one character. *)
Fixpoint split_on (sep : N) (s : pystr) : list pystr :=
  match s with
  | [] => [[]]
  | c :: s' =>
      if decide (c = sep) then [] :: split_on sep s'
      else
        match split_on sep s' with
        | piece :: pieces => (c :: piece) :: pieces
        | [] => [[c]]
        end
  end.

(** [ADMIN_IDS], computed from [ADMIN_IDS_STR]:
    [[aid.strip() for aid in ADMIN_IDS_STR.split(",") if aid.strip()]
     if ADMIN_IDS_STR else []]. *)
Definition parse_admin_ids (ADMIN_IDS_STR : pystr) : list pystr :=
  if decide (ADMIN_IDS_STR ≠ []) then
    filter (fun aid => aid ≠ []) (strip <$> split_on 44 ADMIN_IDS_STR)
  else [].

(** A remote side that rejects every call to the API with an error
    body. *)
Definition rejecting_net : nat -> request -> exn + json :=
  fun _ _ =>
    inr (JObj [(lit "error",
                JObj [(lit "error_code", JInt 5);
                      (lit "error_msg", JStr (lit "auth failed"))])]).

(** A remote side that is out of reach. *)
Definition broken_net : nat -> request -> exn + json :=
  fun _ _ => inl RequestException.

(** Special-order rules that always ask for the fixed dish. *)
Definition always_fixed : Z -> user_flags -> option (pystr * order_config) :=
  fun _ _ =>
    Some (lit "student",
          OrderConfig None (lit "fixed") (Some (lit "tart", 42))).

(** Special-order rules with a directive the code does not know. *)
Definition always_strange : Z -> user_flags -> option (pystr * order_config) :=
  fun _ _ =>
    Some (lit "vip", OrderConfig (Some (lit "triple")) (lit "triple") None).

(** Rules without special orders. *)
Definition never_special : Z -> user_flags -> option (pystr * order_config) :=
  fun _ _ => None.

(** A catalog without any level, and one whose level 0 is empty. *)
Definition empty_catalog : gmap Z (list dish) := ∅.

Definition bare_catalog : gmap Z (list dish) := {[ 0 := [] ]}.

(** A remote side whose polls bring no update and move [ts] to 7. *)
Definition quiet_net : nat -> request -> exn + json :=
  fun _ _ => inr (JObj [(lit "ts", JStr (lit "7")); (lit "updates", JArr [])]).

(** A Long Poll state as the loop holds it after startup. *)
Definition sample_state : poll_state :=
  PollState (JStr (lit "https://lp.vk.com")) (JStr (lit "k1"))
    (JStr (lit "1")) 0.
(** ** Facts about the randomness source *)

Lemma randbelow_lt (n : nat) (g : rng) : (0 < n)%nat -> ((randbelow n g).1 < n)%nat.
Proof. intros Hn. unfold randbelow; simpl. apply Nat.mod_upper_bound. lia. Qed.

Lemma random_choice_elem {A} (seq : list A) (g : rng) x g' :
  random_choice seq g = Ret (x, g') -> x ∈ seq.
Proof.
  unfold random_choice. case_decide; [discriminate|].
  destruct (randbelow (length seq) g) as [i g1].
  destruct (seq !! i) as [y|] eqn:Hi; [|discriminate].
  intros [= <- <-]. eapply list_elem_of_lookup_2; eauto.
Qed.

Lemma random_choice_returns {A} (seq : list A) (g : rng) :
  seq ≠ [] -> ∃ x g', random_choice seq g = Ret (x, g').
Proof.
  intros Hne. unfold random_choice.
  case_decide as Hl; [destruct seq; simpl in *; congruence|].
  pose proof (randbelow_lt (length seq) g ltac:(lia)) as Hlt.
  destruct (randbelow (length seq) g) as [i g1]; simpl in Hlt.
  destruct (lookup_lt_is_Some_2 seq i Hlt) as [x Hx].
  rewrite Hx. eauto.
Qed.

Lemma insert_head_perm {A} (l : list A) (j : nat) (a b : A) :
  l !! j = Some b -> b :: <[j:=a]> l ≡ₚ a :: l.
Proof.
  revert j. induction l as [|h t IH]; intros [|j] Hj; simplify_eq/=.
  - apply Permutation_swap.
  - etrans; [apply Permutation_swap|]. rewrite (IH j Hj). apply Permutation_swap.
Qed.

Lemma swap_perm {A} (x : list A) (i j : nat) : swap x i j ≡ₚ x.
Proof.
  unfold swap.
  destruct (x !! i) as [a|] eqn:Hi; [|done].
  destruct (x !! j) as [b|] eqn:Hj; [|done].
  revert i j Hi Hj. induction x as [|h t IH]; intros [|i] [|j] Hi Hj;
    simplify_eq/=; try done.
  - by apply insert_head_perm.
  - by apply insert_head_perm.
  - f_equiv. by apply IH.
Qed.

Lemma shuffle_from_perm {A} (i : nat) (x : list A) (g : rng) :
  (shuffle_from i x g).1 ≡ₚ x.
Proof.
  revert x g. induction i as [|i IH]; intros x g; simpl; [done|].
  destruct (randbelow (S (S i)) g) as [j g'].
  rewrite IH. apply swap_perm.
Qed.

Lemma random_shuffle_perm {A} (x : list A) (g : rng) :
  (random_shuffle x g).1 ≡ₚ x.
Proof. apply shuffle_from_perm. Qed.

(** ** Facts about the order generator *)

Section generator_facts.
Variable cat : gmap Z (list dish).

Lemma elem_of_opened_pool (dl : Z) (d : dish) :
  d ∈ opened_pool cat dl ↔
  ∃ lv ds, 0 ≤ lv ≤ dl ∧ cat !! lv = Some ds ∧ d ∈ ds.
Proof.
  unfold opened_pool. rewrite list_elem_of_In, in_concat. split.
  - intros (ds & Hds & Hd). apply list_elem_of_In in Hds, Hd.
    apply list_elem_of_fmap in Hds as (lv & -> & Hlv).
    apply elem_of_seqZ in Hlv.
    destruct (cat !! lv) as [ds|] eqn:Hc; simpl in Hd.
    + exists lv, ds. split; [lia|done].
    + by apply elem_of_nil in Hd.
  - intros (lv & ds & Hlv & Hc & Hd). exists ds. split.
    + apply list_elem_of_In, list_elem_of_fmap. exists lv.
      rewrite Hc. split; [done|]. apply elem_of_seqZ. lia.
    + by apply list_elem_of_In.
Qed.

(** What the loop [for d in pool] keeps true of [take]. *)
Lemma greedy_fold_inv (pool taken : list dish) :
  NoDup taken ->
  let r := foldl greedy_step taken pool in
  NoDup r
  ∧ (length taken ≤ length r)%nat
  ∧ ((length taken ≤ 3)%nat -> (length r ≤ 3)%nat)
  ∧ (∀ d, d ∈ r -> d ∈ taken ∨ d ∈ pool)
  ∧ (∀ d, d ∈ taken -> d ∈ r)
  ∧ ((length r < 3)%nat -> ∀ d, d ∈ pool -> d ∈ r).
Proof.
  revert taken. induction pool as [|d pool IH]; intros taken Hnd; simpl.
  { repeat split; auto; try lia. intros _ d Hd. by apply elem_of_nil in Hd. }
  assert (NoDup (greedy_step taken d)) as Hnd'.
  { unfold greedy_step. case_decide as Hc; [|done].
    apply NoDup_app. repeat split; [done| |apply NoDup_singleton].
    intros x Hx ->%list_elem_of_singleton. tauto. }
  destruct (IH _ Hnd') as (H1 & H2 & H3 & H4 & H5 & H6).
  assert (length taken ≤ length (greedy_step taken d))%nat as Hlen.
  { unfold greedy_step. case_decide; [rewrite length_app; simpl|]; lia. }
  repeat split; [done|lia| | | |].
  - intros Hle. apply H3. unfold greedy_step.
    case_decide as Hc; [rewrite length_app; simpl|]; lia.
  - intros x Hx. destruct (H4 x Hx) as [Hin|Hin].
    + unfold greedy_step in Hin. case_decide; [|by left].
      apply elem_of_app in Hin as [?|Hin]; [by left|].
      apply list_elem_of_singleton in Hin as ->. right. by left.
    + right. by right.
  - intros x Hx. apply H5. unfold greedy_step.
    case_decide; [apply elem_of_app|]; auto.
  - intros Hlt x Hx. apply elem_of_cons in Hx as [->|Hx]; [|by apply H6].
    apply H5. unfold greedy_step. case_decide as Hc.
    + apply elem_of_app. right. by apply list_elem_of_singleton.
    + destruct (decide (d ∈ taken)) as [|Hn]; [done|].
      exfalso. apply Hc. split; [done|].
      assert (greedy_step taken d = taken) as Heq
        by (unfold greedy_step; by case_decide).
      rewrite Heq in H2, Hlt. lia.
Qed.

(** The anchor is an unlocked dish. *)
Lemma current_pool_opened (L : Z) (pool0 : list dish) (d : dish) :
  0 ≤ L -> current_pool cat (Z.min L 3) = Ret pool0 -> d ∈ pool0 ->
  d ∈ opened_pool cat (Z.min L 3).
Proof.
  intros HL Hp Hd. unfold current_pool in Hp.
  destruct (cat !! 0) as [l0|] eqn:H0; [|discriminate].
  injection Hp as <-. apply elem_of_opened_pool.
  destruct (cat !! Z.min L 3) as [ds|] eqn:Hc; simpl in Hd.
  - exists (Z.min L 3), ds. split; [lia|done].
  - exists 0, l0. split; [lia|done].
Qed.

(** The state of [take] after the greedy loop, for non-negative levels:
    it has no repetition, lies within the unlocked pool and, when it is
    still short of three dishes, already holds every unlocked dish. *)
Lemma greedy_phase_inv (L : Z) (g g' : rng) (taken : list dish) :
  0 ≤ L ->
  greedy_phase cat L g = Ret (taken, g') ->
  NoDup taken
  ∧ (1 ≤ length taken ≤ 3)%nat
  ∧ (∀ d, d ∈ taken -> d ∈ opened_pool cat (Z.min L 3))
  ∧ ((length taken < 3)%nat ->
     ∀ d, d ∈ opened_pool cat (Z.min L 3) -> d ∈ taken)
  ∧ is_Some (cat !! 0).
Proof.
  intros HL. unfold greedy_phase.
  destruct (current_pool cat (Z.min L 3)) as [pool0| |] eqn:Hp;
    simpl; try discriminate.
  destruct (random_choice pool0 g) as [[cur g1]| |] eqn:Hc;
    simpl; try discriminate.
  pose proof (random_shuffle_perm
    (filter (fun d => d ≠ cur) (opened_pool cat (Z.min L 3))) g1) as Hperm.
  destruct (random_shuffle _ g1) as [pool g2]; simpl in Hperm.
  intros [= <- <-].
  pose proof (current_pool_opened L pool0 cur HL Hp
                (random_choice_elem _ _ _ _ Hc)) as Hcur.
  destruct (greedy_fold_inv pool [cur] (NoDup_singleton cur))
    as (H1 & H2 & H3 & H4 & H5 & H6); simpl in *.
  repeat split; [done|lia|lia| | |].
  - intros d Hd. destruct (H4 d Hd) as [->%list_elem_of_singleton|Hin]; [done|].
    rewrite Hperm in Hin. by apply list_elem_of_filter in Hin as [_ ?].
  - intros Hlt d Hd. destruct (decide (d = cur)) as [->|Hne].
    + apply H5. by apply list_elem_of_singleton.
    + apply H6; [done|]. rewrite Hperm. by apply list_elem_of_filter.
  - unfold current_pool in Hp. destruct (cat !! 0); [eauto|discriminate].
Qed.

(** The greedy loop stops short of three dishes exactly when the unlocked
    pool has fewer than three distinct dishes. *)
Lemma greedy_phase_length (L : Z) (g g' : rng) (taken : list dish) :
  0 ≤ L ->
  greedy_phase cat L g = Ret (taken, g') ->
  ((length taken < 3)%nat ↔
   (length (remove_dups (opened_pool cat (Z.min L 3))) < 3)%nat).
Proof.
  intros HL Hg.
  destruct (greedy_phase_inv L g g' taken HL Hg) as (Hnd & Hlen & Hsub & Hall & _).
  split; intros Hlt.
  - eapply Nat.le_lt_trans; [|exact Hlt].
    apply submseteq_length, NoDup_submseteq; [apply NoDup_remove_dups|].
    intros d Hd. apply Hall; [done|]. by apply (proj1 (elem_of_remove_dups _ _)) in Hd.
  - eapply Nat.le_lt_trans; [|exact Hlt].
    apply submseteq_length, NoDup_submseteq; [done|].
    intros d Hd. apply elem_of_remove_dups. by apply Hsub.
Qed.

(** A backfill pass that meets only dishes already taken adds nothing. *)
Lemma backfill_pass_stuck (l0 taken : list dish) :
  (∀ d, d ∈ l0 -> d ∈ taken) -> length taken ≠ 3%nat ->
  backfill_pass l0 taken = taken.
Proof.
  intros Hall Hlen. induction l0 as [|d l0 IH]; simpl; [done|].
  destruct (decide (d ∉ taken)) as [Hn|_].
  - exfalso. apply Hn, Hall. by left.
  - case_decide; [done|]. apply IH. intros x Hx. apply Hall. by right.
Qed.

Lemma backfill_stuck (fuel : nat) (l0 taken : list dish) :
  cat !! 0 = Some l0 ->
  (∀ d, d ∈ l0 -> d ∈ taken) -> (length taken < 3)%nat ->
  backfill cat fuel taken = Diverged.
Proof.
  intros H0 Hall Hlen. induction fuel as [|fuel IH]; simpl.
  - by case_decide.
  - case_decide; [|lia]. rewrite H0.
    rewrite backfill_pass_stuck; [done|done|lia].
Qed.

Lemma backfill_done (fuel : nat) (taken : list dish) :
  ¬ (length taken < 3)%nat -> backfill cat fuel taken = Ret taken.
Proof. intros Hlen. destruct fuel; simpl; by case_decide. Qed.

(** Whatever the catalog, the loop is left only with three dishes or
    more in [take]. *)
Lemma backfill_returns_full (fuel : nat) (taken r : list dish) :
  backfill cat fuel taken = Ret r -> (3 ≤ length r)%nat.
Proof.
  revert taken. induction fuel as [|fuel IH]; intros taken; simpl.
  - case_decide; [discriminate|]. intros [= <-]. lia.
  - case_decide; [|intros [= <-]; lia].
    destruct (cat !! 0); [apply IH|discriminate].
Qed.

Lemma generate_regular_order_length (fuel : nat) (L : Z) (g g' : rng)
    (order : list dish) :
  generate_regular_order cat fuel L g = Ret (order, g') ->
  length order = 3%nat.
Proof.
  unfold generate_regular_order.
  destruct (greedy_phase cat L g) as [[taken g2]| |]; simpl; try discriminate.
  destruct (backfill cat fuel taken) as [r| |] eqn:Hb; simpl; try discriminate.
  intros [= <- <-]. apply backfill_returns_full in Hb.
  rewrite length_take. lia.
Qed.

Lemma NoDup_fmap_within {A B} (f : A -> B) (l k : list A) :
  NoDup l -> (∀ x, x ∈ l -> x ∈ k) -> NoDup (f <$> k) -> NoDup (f <$> l).
Proof.
  intros Hnd Hsub Hk.
  assert (f <$> l ⊆+ f <$> k) as Hs
    by (apply fmap_submseteq, NoDup_submseteq; done).
  apply submseteq_Permutation in Hs as [k' Hk'].
  rewrite Hk' in Hk. by apply NoDup_app in Hk as [? _].
Qed.

(** The generator loops for ever once the greedy loop has ended with
    fewer than three dishes, and skips the backfill otherwise. *)
Lemma backfill_after_greedy (fuel : nat) (L : Z) (g g' : rng)
    (taken : list dish) :
  0 ≤ L ->
  greedy_phase cat L g = Ret (taken, g') ->
  backfill cat fuel taken =
    if decide (length (remove_dups (opened_pool cat (Z.min L 3))) < 3)%nat
    then Diverged else Ret taken.
Proof.
  intros HL Hg.
  pose proof (greedy_phase_length L g g' taken HL Hg) as Hiff.
  destruct (greedy_phase_inv L g g' taken HL Hg)
    as (Hnd & Hlen & Hsub & Hall & [l0 H0]).
  case_decide as Hc.
  - apply (backfill_stuck fuel l0); [done| |by apply Hiff].
    intros d Hd. apply Hall; [by apply Hiff|].
    apply elem_of_opened_pool. exists 0, l0. split; [lia|done].
  - apply backfill_done. by rewrite Hiff.
Qed.

(** C1, as amended.  For every level [L >= 0], every catalog and every
    outcome of the randomness source, what [generate_regular_order(L)]
    returns is a list of exactly three pairs, pairwise distinct as
    [(name, crosses)] pairs (the code compares the pairs, not the names),
    all from the levels [0..min(L,3)] of the catalog; the names are
    pairwise distinct as well when no two distinct unlocked dishes bear
    the same name.  The call returns whenever the catalog has level 0, the
    pool the anchor is drawn from is not empty and the unlocked levels
    hold at least three distinct pairs. *)
Theorem generate_regular_order_three_distinct
    (fuel : nat) (L : Z) (g : rng) :
  0 ≤ L ->
  (∀ order g',
     generate_regular_order cat fuel L g = Ret (order, g') ->
     length order = 3%nat
     ∧ NoDup order
     ∧ (∀ d, d ∈ order ->
          ∃ lv ds, 0 ≤ lv ≤ Z.min L 3 ∧ cat !! lv = Some ds ∧ d ∈ ds)
     ∧ (NoDup ((remove_dups (opened_pool cat (Z.min L 3))).*1) ->
        NoDup (order.*1)))
  ∧ (∀ l0,
       cat !! 0 = Some l0 ->
       default l0 (cat !! Z.min L 3) ≠ [] ->
       (3 ≤ length (remove_dups (opened_pool cat (Z.min L 3))))%nat ->
       ∃ order g', generate_regular_order cat fuel L g = Ret (order, g')).
Proof.
  intros HL. split.
  - intros order g' Hret. unfold generate_regular_order in Hret.
    destruct (greedy_phase cat L g) as [[taken g1]| |] eqn:Hg;
      simpl in Hret; try discriminate.
    rewrite (backfill_after_greedy fuel L g g1 taken HL Hg) in Hret.
    pose proof (greedy_phase_length L g g1 taken HL Hg) as Hiff.
    destruct (greedy_phase_inv L g g1 taken HL Hg)
      as (Hnd & Hlen & Hsub & _).
    case_decide; simpl in Hret; [discriminate|].
    injection Hret as <- <-.
    assert (take 3 taken = taken) as -> by (apply take_ge; lia).
    repeat split.
    + lia.
    + done.
    + intros d Hd. by apply elem_of_opened_pool, Hsub.
    + intros Hnames.
      apply (NoDup_fmap_within fst taken
               (remove_dups (opened_pool cat (Z.min L 3)))); [done| |done].
      intros d Hd. apply elem_of_remove_dups. by apply Hsub.
  - intros l0 H0 Hpool H3.
    assert (∃ taken g', greedy_phase cat L g = Ret (taken, g'))
      as (taken & g' & Hg).
    { unfold greedy_phase, current_pool. rewrite H0. simpl.
      destruct (random_choice_returns _ g Hpool) as (cur & g1 & ->). simpl.
      destruct (random_shuffle _ g1) as [pool g2]. eauto. }
    pose proof (backfill_after_greedy fuel L g g' taken HL Hg) as Hb.
    case_decide; [lia|].
    exists (take 3 taken), g'.
    unfold generate_regular_order. rewrite Hg. simpl. by rewrite Hb.
Qed.

(** For every level [L >= 0], once the greedy loop is over the backfill
    loop exits exactly when the unlocked levels hold at least three
    distinct dishes, and then without running its body; with fewer than
    three distinct unlocked dishes it never exits and the call does not
    return. *)
Lemma backfill_exits_iff_three_unlocked
    (L : Z) (g g' : rng) (taken : list dish) :
  0 ≤ L ->
  greedy_phase cat L g = Ret (taken, g') ->
  ((3 ≤ length (remove_dups (opened_pool cat (Z.min L 3))))%nat ->
     ∀ fuel, backfill cat fuel taken = Ret taken
             ∧ generate_regular_order cat fuel L g = Ret (taken, g'))
  ∧ ((length (remove_dups (opened_pool cat (Z.min L 3))) < 3)%nat ->
     ∀ fuel, backfill cat fuel taken = Diverged
             ∧ generate_regular_order cat fuel L g = Diverged).
Proof.
  intros HL Hg. split; intros Hn fuel;
    pose proof (backfill_after_greedy fuel L g g' taken HL Hg) as Hb;
    case_decide; try lia; (split; [done|]);
    unfold generate_regular_order; rewrite Hg; simpl; rewrite Hb; simpl;
    [|done].
  destruct (greedy_phase_inv L g g' taken HL Hg) as (_ & Hlen & _).
  rewrite take_ge; [done|lia].
Qed.

End generator_facts.

(** The generator on the sample catalog, at level 1. *)
Example generate_sample :
  (generate_regular_order sample_catalog 0 1 sample_rng) =
  Ret ([(lit "pie", 40); (lit "jam", 30); (lit "tea", 10)], Rng (fun n => n) 3).
Proof. vm_compute. reflexivity. Qed.

Lemma generate_regular_order_three_distinct_witness :
  0 ≤ 1
  ∧ ∃ order g',
      generate_regular_order sample_catalog 0 1 sample_rng = Ret (order, g')
      ∧ length order = 3%nat
      ∧ NoDup order
      ∧ NoDup (order.*1)
      ∧ ∀ d, d ∈ order ->
          ∃ lv ds,
            0 ≤ lv ≤ Z.min 1 3 ∧ sample_catalog !! lv = Some ds ∧ d ∈ ds.
Proof.
  assert (0 ≤ 1) as HL by lia.
  split; [exact HL|].
  destruct (generate_regular_order_three_distinct sample_catalog 0 1
              sample_rng HL) as [Hshape Hreturns].
  destruct (Hreturns [(lit "tea", 10); (lit "bun", 20); (lit "jam", 30)])
    as (order & g' & Hret).
  - reflexivity.
  - vm_compute. discriminate.
  - vm_compute. lia.
  - exists order, g'.
    destruct (Hshape order g' Hret) as (Hlen & Hnd & Hfrom & Hnames).
    repeat split; [done..| |done].
    apply Hnames. apply (bool_decide_unpack _). vm_compute. exact I.
Defined.

(** C1 fails as stated: the code tells dishes apart by the pair of name
    and crosses.  On a catalog whose level 1 offers the tea of level 0
    again for more crosses, a level-1 order holds tea twice. *)
Lemma generate_regular_order_repeats_name :
  generate_regular_order same_name_catalog 0 1 sample_rng
    = Ret ([(lit "tea", 15); (lit "tea", 10); (lit "bun", 20)],
           Rng (fun n => n) 2)
  ∧ ¬ NoDup ([(lit "tea", 15); (lit "tea", 10); (lit "bun", 20)].*1).
Proof.
  split; [vm_compute; reflexivity|].
  intros Hnd. apply NoDup_cons in Hnd as [Hnotin _].
  apply Hnotin. apply elem_of_cons. by left.
Qed.

(** C2, on the code.  On a catalog whose level 0 holds two dishes, a
    level-0 order leaves the greedy loop with both dishes taken; the
    backfill loop then finds nothing to add and never exits, whatever the
    fuel, and [generate_regular_order] does not return. *)
Theorem backfill_never_exits_on_two_dishes (fuel : nat) :
  greedy_phase two_dish_catalog 0 sample_rng
    = Ret ([(lit "tea", 10); (lit "bun", 20)], Rng (fun n => n) 1)
  ∧ backfill two_dish_catalog fuel [(lit "tea", 10); (lit "bun", 20)]
    = Diverged
  ∧ generate_regular_order two_dish_catalog fuel 0 sample_rng = Diverged.
Proof.
  assert (greedy_phase two_dish_catalog 0 sample_rng =
          Ret ([(lit "tea", 10); (lit "bun", 20)], Rng (fun n => n) 1)) as Hg
    by (vm_compute; reflexivity).
  assert (backfill two_dish_catalog fuel [(lit "tea", 10); (lit "bun", 20)]
          = Diverged) as Hb.
  { apply (backfill_stuck two_dish_catalog fuel
             [(lit "tea", 10); (lit "bun", 20)]); [done|auto|simpl; lia]. }
  repeat split; [done..|].
  unfold generate_regular_order. rewrite Hg. simpl. by rewrite Hb.
Qed.

(** ** Facts about halving and doubling *)

Lemma sum_crosses_cons (d : dish) (l : list dish) :
  sum_crosses (d :: l) = d.2 + sum_crosses l.
Proof. reflexivity. Qed.

Lemma sum_crosses_nil : sum_crosses [] = 0.
Proof. reflexivity. Qed.

#[local] Arguments sum_crosses : simpl never.

Lemma halved_values_positive (dishes : list dish) :
  Forall (fun d : dish => 1 ≤ d.2)
    ((fun d : dish => (d.1, Z.max 1 (d.2 / 2))) <$> dishes).
Proof. induction dishes; csimpl; constructor; csimpl; [lia|done]. Qed.

(** Twice the sum of the halves does not exceed the sum, when no half had
    to be raised to 1. *)
Lemma halved_sum_bound (dishes : list dish) :
  Forall (fun d : dish => 2 ≤ d.2) dishes ->
  2 * sum_crosses ((fun d : dish => (d.1, Z.max 1 (d.2 / 2))) <$> dishes)
  ≤ sum_crosses dishes.
Proof.
  induction 1 as [|d l Hd _ IH]; csimpl; [rewrite sum_crosses_nil; lia|].
  rewrite !sum_crosses_cons; csimpl.
  assert (1 ≤ d.2 / 2) by (apply Z.div_le_lower_bound; lia).
  pose proof (Z.mul_div_le d.2 2 ltac:(lia)). lia.
Qed.

Lemma half_new_order_names (dishes : list dish) :
  (half_new_order dishes).1.*1 = dishes.*1.
Proof.
  unfold half_new_order. destruct dishes as [|[n0 c0] rest]; csimpl; [done|].
  case_decide; csimpl; f_equal; rewrite <- list_fmap_compose;
    by apply list_fmap_ext.
Qed.

Lemma half_new_order_values (dishes : list dish) :
  Forall (fun d : dish => 1 ≤ d.2) (half_new_order dishes).1.
Proof.
  unfold half_new_order. destruct dishes as [|[n0 c0] rest]; csimpl; [done|].
  case_decide; csimpl; constructor; csimpl; try lia;
    apply halved_values_positive.
Qed.

(** The adjusted halves add up to [total // 2] exactly when that leaves at
    least one cross for the first dish. *)
Lemma half_new_order_sum (d0 : dish) (rest : list dish) :
  sum_crosses (half_new_order (d0 :: rest)).1 = sum_crosses (d0 :: rest) / 2
  ↔ 1 ≤ sum_crosses (d0 :: rest) / 2
        - sum_crosses ((fun d : dish => (d.1, Z.max 1 (d.2 / 2))) <$> rest).
Proof.
  unfold half_new_order. destruct d0 as [n0 c0]. csimpl.
  set (T := sum_crosses ((n0, c0) :: rest) / 2).
  set (R := sum_crosses ((fun d : dish => (d.1, Z.max 1 (d.2 / 2))) <$> rest)).
  rewrite sum_crosses_cons. csimpl. fold R.
  case_decide as Hne; csimpl.
  - rewrite sum_crosses_cons. csimpl. fold R. lia.
  - rewrite sum_crosses_cons. csimpl. fold R. lia.
Qed.

Lemma half_new_order_exact (dishes : list dish) :
  dishes ≠ [] ->
  Forall (fun d : dish => 2 ≤ d.2) dishes ->
  sum_crosses (half_new_order dishes).1 = sum_crosses dishes / 2.
Proof.
  intros Hne Hall. destruct dishes as [|d0 rest]; [done|].
  apply half_new_order_sum.
  pose proof (halved_sum_bound _ Hall) as Hb. csimpl in Hb.
  rewrite sum_crosses_cons in Hb. csimpl in Hb.
  apply Forall_cons in Hall as [H0 _].
  assert (1 ≤ d0.2 / 2) by (apply Z.div_le_lower_bound; lia).
  assert (Z.max 1 (d0.2 / 2)
          + sum_crosses ((fun d : dish => (d.1, Z.max 1 (d.2 / 2))) <$> rest)
          ≤ sum_crosses (d0 :: rest) / 2)
    by (apply Z.div_le_lower_bound; lia).
  lia.
Qed.

Lemma double_dishes_names (dishes : list dish) :
  (double_dishes dishes).*1 = dishes.*1.
Proof.
  unfold double_dishes. rewrite <- list_fmap_compose. by apply list_fmap_ext.
Qed.

Lemma double_dishes_values (dishes : list dish) :
  (double_dishes dishes).*2 = (fun c => c * 2) <$> dishes.*2.
Proof.
  unfold double_dishes. rewrite <- !list_fmap_compose. by apply list_fmap_ext.
Qed.

Example half_new_order_even :
  half_new_order [(lit "tea", 10); (lit "bun", 25); (lit "jam", 30)]
  = ([(lit "tea", 5); (lit "bun", 12); (lit "jam", 15)], 32).
Proof. reflexivity. Qed.

Example half_new_order_drift :
  half_new_order [(lit "tea", 11); (lit "bun", 25); (lit "jam", 30)]
  = ([(lit "tea", 6); (lit "bun", 12); (lit "jam", 15)], 33).
Proof. reflexivity. Qed.

Example half_new_order_ones :
  half_new_order [(lit "tea", 1); (lit "bun", 1); (lit "jam", 1)]
  = ([(lit "tea", 1); (lit "bun", 1); (lit "jam", 1)], 1).
Proof. reflexivity. Qed.

(** ** Frame properties of the calls to the VK API *)

Lemma py_contains_returns key obj : py_contains key obj ≠ Diverged.
Proof. by destruct obj. Qed.

Lemma py_get_returns obj key dflt : py_get obj key dflt ≠ Diverged.
Proof. by destruct obj. Qed.

Lemma py_getitem_returns obj key : py_getitem obj key ≠ Diverged.
Proof. destruct obj; simpl; try done. by destruct (lookup_key key items). Qed.

(** A call to the API adds its request to the trace and touches nothing
    else; it returns or raises. *)
Lemma vk_api_call_frame (req : request) (w : world) :
  ∃ r, vk_api_call req w =
         (r, World (w_db w) (w_random w) (w_net w) (w_calls w ++ [req])
               (w_log w) (w_slept w))
       ∧ r ≠ Diverged.
Proof.
  unfold vk_api_call, mbind, M_bind, http.
  destruct (w_net w (length (w_calls w)) req) as [e|data]; [by eexists|].
  unfold lift.
  pose proof (py_contains_returns (lit "error") data).
  destruct (py_contains (lit "error") data) as [[|]| |]; [| |by eexists|done].
  - pose proof (py_getitem_returns data (lit "error")).
    destruct (py_getitem data (lit "error")) as [err| |];
      [|by eexists|done].
    pose proof (py_get_returns err (lit "error_code") JNull).
    destruct (py_get err (lit "error_code") JNull); [|by eexists|done].
    pose proof (py_get_returns err (lit "error_msg") JNull).
    destruct (py_get err (lit "error_msg") JNull); [|by eexists|done].
    by eexists.
  - pose proof (py_getitem_returns data (lit "response")). by eexists.
Qed.

(** [send_message] never raises: whatever the remote side does, the
    failure is logged and the call returns. *)
Lemma send_message_frame (peer_id : Z) (message : text)
    (keyboard : option (list (list button))) (w : world) :
  ∃ random_id logs,
    send_message peer_id message keyboard w =
      (Ret tt,
       World (w_db w) (Rng (draws (w_random w)) (S (cursor (w_random w))))
         (w_net w)
         (w_calls w ++ [MessagesSend peer_id random_id message keyboard])
         (w_log w ++ logs) (w_slept w)).
Proof.
  unfold send_message, try_except, mbind, M_bind, randint.
  match goal with |- context [vk_api_call ?req ?w'] =>
    destruct (vk_api_call_frame req w') as (r & -> & Hr) end.
  simpl. destruct r as [v|e|]; [|simpl|done].
  - eexists _, []. by rewrite app_nil_r.
  - by eexists _, [_].
Qed.

Lemma get_user_first_name_frame (uid : Z) (w : world) :
  ∃ name logs,
    get_user_first_name uid w =
      (Ret name,
       World (w_db w) (w_random w) (w_net w) (w_calls w ++ [UsersGet uid])
         (w_log w ++ logs) (w_slept w)).
Proof.
  unfold get_user_first_name, try_except, mbind, M_bind.
  destruct (vk_api_call_frame (UsersGet uid) w) as (r & -> & Hr).
  destruct r as [resp|e|]; [|simpl|done].
  - assert (∀ w', (mret GUEST : M pystr) w' = (Ret GUEST, w')) as Hret by done.
    destruct resp as [| | | |[|first rest]|];
      try (rewrite Hret; eexists _, []; by rewrite app_nil_r).
    unfold lift.
    destruct (py_get first (lit "first_name") JNull) as [name|e|] eqn:Hg.
    + eexists _, []. by rewrite app_nil_r.
    + by eexists _, [_].
    + destruct first; discriminate.
  - by eexists _, [_].
Qed.

(** ** Facts about new orders *)

Lemma get_active_order_save (db : gmap Z user_row) (uid : Z)
    (dishes : list dish) (tag : option pystr) :
  is_Some (db !! uid) ->
  get_active_order (save_active_order db uid dishes tag) uid
  = Some (ActiveOrder dishes tag).
Proof.
  intros [r Hr]. unfold get_active_order, save_active_order.
  rewrite lookup_alter. case_decide; [|done]. by rewrite Hr.
Qed.

Lemma drop_half_new_order (d0 : dish) (rest : list dish) :
  drop 1 (half_new_order (d0 :: rest)).1
  = (fun d : dish => (d.1, Z.max 1 (d.2 / 2))) <$> rest.
Proof. unfold half_new_order. destruct d0. csimpl. by case_decide. Qed.

Section order_facts.
Variable cat : gmap Z (list dish).
Variable chk : Z -> user_flags -> option (pystr * order_config).
Variable fuel : nat.

Lemma generate_order_run (level : Z) (w : world) :
  generate_order cat fuel level w =
  match generate_regular_order cat fuel level (w_random w) with
  | Ret (dishes, g) =>
      (Ret dishes,
       World (w_db w) g (w_net w) (w_calls w) (w_log w) (w_slept w))
  | Raise e => (Raise e, w)
  | Diverged => (Diverged, w)
  end.
Proof. reflexivity. Qed.

(** What the regular end of [_vk_new_order_logic] does, in terms of the
    generator alone. *)
Lemma regular_order_run (u : user) (name : pystr) (w : world) :
  regular_order cat fuel u name w =
  match generate_regular_order cat fuel (r_level (row u)) (w_random w) with
  | Ret (dishes, g) =>
      (Ret (NEW_ORDER_MESSAGE name (r_total_orders (row u) + 1) dishes
              (sum_crosses dishes)),
       World (save_active_order (w_db w) (user_id u) dishes None) g
         (w_net w) (w_calls w) (w_log w) (w_slept w))
  | Raise e => (Raise e, w)
  | Diverged => (Diverged, w)
  end.
Proof.
  unfold regular_order, mbind, M_bind. rewrite generate_order_run.
  by destruct (generate_regular_order _ _ _ _) as [[dishes g]| |].
Qed.

Lemma logic_regular (u : user) (uid : Z) (first_name : pystr) (w : world) :
  special_result chk u (w_db w) = None ->
  _vk_new_order_logic cat chk fuel u uid first_name w
  = regular_order cat fuel u (name_mention u uid first_name) w.
Proof.
  intros Hs. unfold _vk_new_order_logic, mbind, M_bind, get_db.
  by rewrite Hs.
Qed.

Lemma logic_half (u : user) (uid : Z) (first_name : pystr) (w : world)
    (tag : pystr) (cfg : order_config) (dishes : list dish) (g' : rng) :
  special_result chk u (w_db w) = Some (tag, cfg) ->
  oc_type cfg = Some (lit "half_new_order") ->
  generate_regular_order cat fuel (r_level (row u)) (w_random w)
    = Ret (dishes, g') ->
  _vk_new_order_logic cat chk fuel u uid first_name w =
    (Ret (SPECIAL_ORDER_TEXT (oc_text_template cfg)
            (name_mention u uid first_name)
            (Some (half_new_order dishes).2) (half_new_order dishes).1),
     World (save_active_order (w_db w) (user_id u)
              (half_new_order dishes).1 (Some tag))
       g' (w_net w) (w_calls w) (w_log w) (w_slept w)).
Proof.
  intros Hs Hty Hgen. unfold _vk_new_order_logic, mbind, M_bind, get_db.
  rewrite Hs, Hty. csimpl.
  rewrite generate_order_run, Hgen.
  by destruct (half_new_order dishes).
Qed.

Lemma logic_double (u : user) (uid : Z) (first_name : pystr) (w : world)
    (tag : pystr) (cfg : order_config) :
  special_result chk u (w_db w) = Some (tag, cfg) ->
  oc_type cfg = Some (lit "double_previous") ->
  _vk_new_order_logic cat chk fuel u uid first_name w =
    match get_last_order (w_db w) (user_id u) with
    | Some lo =>
        (Ret (SPECIAL_ORDER_TEXT (oc_text_template cfg)
                (name_mention u uid first_name) (Some (lo_crosses lo * 2)) []),
         World (save_active_order (w_db w) (user_id u)
                  (double_dishes (lo_dishes lo)) (Some tag))
           (w_random w) (w_net w) (w_calls w) (w_log w) (w_slept w))
    | None => regular_order cat fuel u (name_mention u uid first_name) w
    end.
Proof.
  intros Hs Hty. unfold _vk_new_order_logic, mbind, M_bind, get_db.
  rewrite Hs, Hty. csimpl.
  by destruct (get_last_order (w_db w) (user_id u)).
Qed.

(** C3, as the code has it.  When the next order of a stored user
    triggers the half-new-order directive and the generator returns a
    fresh order of total [T], the persisted active order keeps the dish
    names, bears the tag of the directive, and each of its values is at
    least 1.  Its values add up to [T // 2] exactly when [T // 2] exceeds
    the sum of the values persisted for the dishes after the first; this
    holds whenever every generated dish is worth at least 2 crosses. *)
Theorem half_new_order_persisted
    (u : user) (uid : Z) (first_name : pystr) (w : world)
    (tag : pystr) (cfg : order_config) (dishes : list dish) (g' : rng) :
  w_db w !! user_id u = Some (row u) ->
  special_result chk u (w_db w) = Some (tag, cfg) ->
  oc_type cfg = Some (lit "half_new_order") ->
  generate_regular_order cat fuel (r_level (row u)) (w_random w)
    = Ret (dishes, g') ->
  ∃ message w' persisted,
    _vk_new_order_logic cat chk fuel u uid first_name w = (Ret message, w')
    ∧ get_active_order (w_db w') (user_id u)
      = Some (ActiveOrder persisted (Some tag))
    ∧ persisted.*1 = dishes.*1
    ∧ Forall (fun d : dish => 1 ≤ d.2) persisted
    ∧ (sum_crosses persisted = sum_crosses dishes / 2
       ↔ 1 ≤ sum_crosses dishes / 2 - sum_crosses (drop 1 persisted))
    ∧ (Forall (fun d : dish => 2 ≤ d.2) dishes ->
       sum_crosses persisted = sum_crosses dishes / 2).
Proof.
  intros Hrow Hs Hty Hgen.
  eexists _, _, (half_new_order dishes).1.
  split; [by apply logic_half|]. csimpl.
  assert (dishes ≠ []) as Hne.
  { apply generate_regular_order_length in Hgen. by destruct dishes. }
  repeat split.
  - by apply get_active_order_save.
  - apply half_new_order_names.
  - apply half_new_order_values.
  - destruct dishes as [|d0 rest]; [done|].
    rewrite drop_half_new_order. apply half_new_order_sum.
  - destruct dishes as [|d0 rest]; [done|].
    rewrite drop_half_new_order. apply half_new_order_sum.
  - by apply half_new_order_exact.
Qed.

(** C4. When the Last Completed Order of a stored user carries a tag
    (the user has then completed at least one order), the next order
    generation does not depend on [check_special_order], whatever the
    order index and the flags: no special order is considered and the
    order produced is the regular one, saved without a tag. *)
Theorem tagged_last_order_suppresses_special
    (u : user) (uid : Z) (first_name : pystr) (w : world) (lo : last_order) :
  w_db w !! user_id u = Some (row u) ->
  0 < r_total_orders (row u) ->
  r_last (row u) = Some lo ->
  tag_truthy (lo_tag lo) = true ->
  special_result chk u (w_db w) = None
  ∧ (∀ chk',
       _vk_new_order_logic cat chk' fuel u uid first_name w
       = _vk_new_order_logic cat chk fuel u uid first_name w)
  ∧ _vk_new_order_logic cat chk fuel u uid first_name w
    = match generate_regular_order cat fuel (r_level (row u)) (w_random w)
      with
      | Ret (dishes, g) =>
          (Ret (NEW_ORDER_MESSAGE (name_mention u uid first_name)
                  (r_total_orders (row u) + 1) dishes (sum_crosses dishes)),
           World (save_active_order (w_db w) (user_id u) dishes None) g
             (w_net w) (w_calls w) (w_log w) (w_slept w))
      | Raise e => (Raise e, w)
      | Diverged => (Diverged, w)
      end
  ∧ (∀ dishes g,
       generate_regular_order cat fuel (r_level (row u)) (w_random w)
         = Ret (dishes, g) ->
       get_active_order
         (w_db (_vk_new_order_logic cat chk fuel u uid first_name w).2)
         (user_id u)
       = Some (ActiveOrder dishes None)).
Proof.
  intros Hrow Htot Hlast Htag.
  assert (∀ c, special_result c u (w_db w) = None) as Hnone.
  { intros c. unfold special_result, last_order_was_special, get_last_order.
    case_decide; [|lia]. rewrite Hrow. csimpl. rewrite Hlast.
    by rewrite Htag. }
  assert (∀ c, _vk_new_order_logic cat c fuel u uid first_name w
               = regular_order cat fuel u (name_mention u uid first_name) w)
    as Hreg.
  { intros c. unfold _vk_new_order_logic, mbind, M_bind, get_db.
    by rewrite Hnone. }
  repeat split.
  - apply Hnone.
  - intros chk'. by rewrite !Hreg.
  - rewrite Hreg. apply regular_order_run.
  - intros dishes g Hgen. rewrite Hreg, regular_order_run, Hgen. csimpl.
    by apply get_active_order_save.
Qed.

(** C5. When the next order of a stored user triggers the
    double-previous directive: with a Last Completed Order, the persisted
    active order bears the tag of the directive and has the dish names
    of that order in the same positions with every value doubled; with
    none, no special order is produced and the regular order is
    generated instead. *)
Theorem double_previous_persisted
    (u : user) (uid : Z) (first_name : pystr) (w : world)
    (tag : pystr) (cfg : order_config) :
  w_db w !! user_id u = Some (row u) ->
  special_result chk u (w_db w) = Some (tag, cfg) ->
  oc_type cfg = Some (lit "double_previous") ->
  match r_last (row u) with
  | Some lo =>
      ∃ message w' persisted,
        _vk_new_order_logic cat chk fuel u uid first_name w
          = (Ret message, w')
        ∧ get_active_order (w_db w') (user_id u)
          = Some (ActiveOrder persisted (Some tag))
        ∧ persisted.*1 = (lo_dishes lo).*1
        ∧ persisted.*2 = (fun c => c * 2) <$> (lo_dishes lo).*2
  | None =>
      _vk_new_order_logic cat chk fuel u uid first_name w
      = regular_order cat fuel u (name_mention u uid first_name) w
      ∧ ∀ dishes g,
          generate_regular_order cat fuel (r_level (row u)) (w_random w)
            = Ret (dishes, g) ->
          get_active_order
            (w_db (_vk_new_order_logic cat chk fuel u uid first_name w).2)
            (user_id u)
          = Some (ActiveOrder dishes None)
  end.
Proof.
  intros Hrow Hs Hty.
  pose proof (logic_double u uid first_name w tag cfg Hs Hty) as Hrun.
  unfold get_last_order in Hrun. rewrite Hrow in Hrun. csimpl in Hrun.
  destruct (r_last (row u)) as [lo|].
  - eexists _, _, (double_dishes (lo_dishes lo)).
    split; [exact Hrun|]. csimpl. repeat split.
    + by apply get_active_order_save.
    + apply double_dishes_names.
    + apply double_dishes_values.
  - split; [exact Hrun|].
    intros dishes g Hgen. rewrite Hrun, regular_order_run, Hgen. csimpl.
    by apply get_active_order_save.
Qed.

(** C6. When the user already has an Active Order, [handle_new] returns
    after two requests, the lookup of the first name and the "already
    has an order" reply to the conversation; the store is left as it
    was and the generator is not run (the only draw is the [random_id]
    of the reply). *)
Theorem handle_new_with_active_order
    (uid peer_id : Z) (w : world) (active : active_order) :
  get_active_order (w_db w) uid = Some active ->
  ∃ name random_id w',
    handle_new cat chk fuel uid peer_id w = (Ret tt, w')
    ∧ w_db w' = w_db w
    ∧ w_calls w' =
        w_calls w ++
          [UsersGet uid;
           MessagesSend peer_id random_id
             (ALREADY_HAS_ORDER (format_vk_user_mention uid name))
             (Some build_main_keyboard)]
    ∧ cursor (w_random w') = S (cursor (w_random w)).
Proof.
  intros Hact. unfold handle_new, mbind at 1, M_bind at 1.
  destruct (get_user_first_name_frame uid w) as (first_name & logs & ->).
  unfold mbind, M_bind, get_db, set_db. csimpl.
  unfold get_active_order in Hact.
  destruct (w_db w !! uid) as [r|] eqn:Hrow; [|done].
  unfold fetch_user. rewrite Hrow. csimpl.
  unfold get_active_order. rewrite Hrow. csimpl in *. rewrite Hact.
  match goal with |- context [send_message ?p ?t ?k ?w0] =>
    destruct (send_message_frame p t k w0) as (rid & logs' & ->) end.
  csimpl. eexists _, rid, _. split; [done|]. csimpl.
  repeat split. by rewrite <- app_assoc.
Qed.

End order_facts.

Lemma half_new_order_persisted_witness :
  ∃ message w' persisted,
    _vk_new_order_logic sample_catalog always_half 0 (User 7 sample_row) 7
      (lit "Ann") (sample_world {[7 := sample_row]} friendly_net)
      = (Ret message, w')
    ∧ get_active_order (w_db w') 7
      = Some (ActiveOrder persisted (Some (lit "critic")))
    ∧ persisted.*1
      = [(lit "tea", 10); (lit "bun", 20); (lit "jam", 30)].*1
    ∧ Forall (fun d : dish => 1 ≤ d.2) persisted
    ∧ (sum_crosses persisted
         = sum_crosses [(lit "tea", 10); (lit "bun", 20); (lit "jam", 30)] / 2
       ↔ 1 ≤ sum_crosses [(lit "tea", 10); (lit "bun", 20); (lit "jam", 30)] / 2
             - sum_crosses (drop 1 persisted))
    ∧ (Forall (fun d : dish => 2 ≤ d.2)
         [(lit "tea", 10); (lit "bun", 20); (lit "jam", 30)] ->
       sum_crosses persisted
       = sum_crosses [(lit "tea", 10); (lit "bun", 20); (lit "jam", 30)] / 2).
Proof.
  apply (half_new_order_persisted sample_catalog always_half 0
           (User 7 sample_row) 7 (lit "Ann")
           (sample_world {[7 := sample_row]} friendly_net)
           (lit "critic")
           (OrderConfig (Some (lit "half_new_order")) (lit "half") None)
           [(lit "tea", 10); (lit "bun", 20); (lit "jam", 30)]
           (Rng (fun n => n) 2)).
  - reflexivity.
  - reflexivity.
  - reflexivity.
  - vm_compute. reflexivity.
Defined.

(** C3 fails as stated: with three dishes of one cross each, the persisted
    values add up to 3 while half of the fresh total is 1. *)
Lemma half_new_order_sum_mismatch :
  special_result always_half (User 7 sample_row) {[7 := sample_row]}
    = Some (lit "critic",
            OrderConfig (Some (lit "half_new_order")) (lit "half") None)
  ∧ generate_regular_order one_cross_catalog 0 0 sample_rng
    = Ret ([(lit "tea", 1); (lit "bun", 1); (lit "jam", 1)],
           Rng (fun n => n) 2)
  ∧ get_active_order
      (w_db (_vk_new_order_logic one_cross_catalog always_half 0
               (User 7 sample_row) 7 (lit "Ann")
               (sample_world {[7 := sample_row]} friendly_net)).2) 7
    = Some (ActiveOrder [(lit "tea", 1); (lit "bun", 1); (lit "jam", 1)]
              (Some (lit "critic")))
  ∧ sum_crosses [(lit "tea", 1); (lit "bun", 1); (lit "jam", 1)]
    ≠ sum_crosses [(lit "tea", 1); (lit "bun", 1); (lit "jam", 1)] / 2.
Proof. repeat split; try (vm_compute; reflexivity). by vm_compute. Qed.

Lemma tagged_last_order_suppresses_special_witness :
  special_result always_half (User 7 tagged_row) {[7 := tagged_row]} = None
  ∧ get_active_order
      (w_db (_vk_new_order_logic sample_catalog always_half 0
               (User 7 tagged_row) 7 (lit "Ann")
               (sample_world {[7 := tagged_row]} friendly_net)).2) 7
    = Some (ActiveOrder [(lit "tea", 10); (lit "bun", 20); (lit "jam", 30)]
              None).
Proof.
  destruct (tagged_last_order_suppresses_special sample_catalog always_half 0
              (User 7 tagged_row) 7 (lit "Ann")
              (sample_world {[7 := tagged_row]} friendly_net)
              (LastOrder [(lit "tea", 10)] 10 (Some (lit "student"))))
    as (Hnone & _ & _ & Hsaved).
  - reflexivity.
  - reflexivity.
  - reflexivity.
  - reflexivity.
  - split; [exact Hnone|].
    apply (Hsaved _ (Rng (fun n => n) 2)). vm_compute. reflexivity.
Defined.

Lemma double_previous_persisted_witness :
  ∃ message w' persisted,
    _vk_new_order_logic sample_catalog always_double 0 (User 7 sample_row) 7
      (lit "Ann") (sample_world {[7 := sample_row]} friendly_net)
      = (Ret message, w')
    ∧ get_active_order (w_db w') 7
      = Some (ActiveOrder persisted (Some (lit "second_chef")))
    ∧ persisted.*1 = [(lit "tea", 10); (lit "bun", 25)].*1
    ∧ persisted.*2 = (fun c => c * 2) <$> [(lit "tea", 10); (lit "bun", 25)].*2.
Proof.
  apply (double_previous_persisted sample_catalog always_double 0
           (User 7 sample_row) 7 (lit "Ann")
           (sample_world {[7 := sample_row]} friendly_net)
           (lit "second_chef")
           (OrderConfig (Some (lit "double_previous")) (lit "double") None)).
  - reflexivity.
  - reflexivity.
  - reflexivity.
Defined.

Lemma handle_new_with_active_order_witness :
  ∃ name random_id w',
    handle_new sample_catalog always_half 0 7 2000000001
      (sample_world {[7 := busy_row]} friendly_net) = (Ret tt, w')
    ∧ w_db w' = {[7 := busy_row]}
    ∧ w_calls w' =
        [UsersGet 7;
         MessagesSend 2000000001 random_id
           (ALREADY_HAS_ORDER (format_vk_user_mention 7 name))
           (Some build_main_keyboard)]
    ∧ cursor (w_random w') = 1%nat.
Proof.
  exact (handle_new_with_active_order sample_catalog always_half 0 7
           2000000001 (sample_world {[7 := busy_row]} friendly_net)
           (ActiveOrder [(lit "tea", 10)] None) eq_refl).
Defined.

(** The double-previous directive on the sample user. *)
Example double_previous_sample :
  get_active_order
    (w_db (_vk_new_order_logic sample_catalog always_double 0
             (User 7 sample_row) 7 (lit "Ann")
             (sample_world {[7 := sample_row]} friendly_net)).2) 7
  = Some (ActiveOrder [(lit "tea", 20); (lit "bun", 50)]
            (Some (lit "second_chef"))).
Proof. vm_compute. reflexivity. Qed.

(** ** Facts about the admin statistics *)

Section admin_facts.
Variable ADMIN_IDS : list pystr.

(** Since [send_message] swallows every exception, the [except] clause
    of [handle_top] is never entered: the private message is attempted
    and, from a conversation, the acknowledgment follows, whether or not
    the private message went through. *)
Lemma send_to_admin_never_notifies (uid peer_id : Z) (message : text)
    (w : world) :
  ∃ rid1 rid2 w',
    send_to_admin uid peer_id message w = (Ret tt, w')
    ∧ w_calls w' =
        w_calls w ++ MessagesSend uid rid1 message None ::
          (if decide (peer_id ≠ uid)
           then [MessagesSend peer_id rid2 TOP_SENT_DM None] else []).
Proof.
  unfold send_to_admin, try_except, mbind, M_bind.
  destruct (send_message_frame uid message None w) as (rid1 & logs & ->).
  case_decide.
  - match goal with |- context [send_message ?p ?t ?k ?w0] =>
      destruct (send_message_frame p t k w0) as (rid2 & logs' & ->) end.
    eexists rid1, rid2, _. split; [done|]. csimpl.
    by rewrite <- app_assoc.
  - by eexists rid1, 0, _.
Qed.

(** For an admin who writes from a conversation, whatever the remote
    side does: two messages, the table (or the empty-database text) to
    the admin and the acknowledgment to the conversation. *)
Lemma handle_top_from_conversation_calls (uid peer_id : Z) (w : world) :
  is_admin ADMIN_IDS (str_of_int uid) = true ->
  peer_id ≠ uid ->
  ∃ rid1 rid2 message w',
    handle_top ADMIN_IDS uid peer_id w = (Ret tt, w')
    ∧ w_calls w' =
        w_calls w ++ [MessagesSend uid rid1 message None;
                      MessagesSend peer_id rid2 TOP_SENT_DM None].
Proof.
  intros Hadmin Hne. unfold handle_top. rewrite Hadmin. csimpl.
  unfold mbind, M_bind, get_db.
  destruct (select_stats (w_db w)) as [|r rows].
  - destruct (send_to_admin_never_notifies uid peer_id EMPTY_DB w)
      as (rid1 & rid2 & w' & Hrun & Hcalls).
    exists rid1, rid2, EMPTY_DB, w'. split; [done|].
    rewrite Hcalls. by case_decide.
  - destruct (send_to_admin_never_notifies uid peer_id
                (STATS (stats_lines 1 (r :: rows))) w)
      as (rid1 & rid2 & w' & Hrun & Hcalls).
    exists rid1, rid2, (STATS (stats_lines 1 (r :: rows))), w'.
    split; [done|]. rewrite Hcalls. by case_decide.
Qed.

End admin_facts.

(** C9, on the code.  Admin 1 asks for the statistics from conversation 2
    while private messages to 1 fail: the failure is logged inside
    [send_message], and the conversation receives the acknowledgment
    [TOP_SENT_DM], not the failure notice [TOP_DM_FAIL]. *)
Theorem handle_top_failed_dm_is_acknowledged :
  let r := handle_top [lit "1"] 1 2
             (sample_world {[7 := sample_row]} no_dm_net) in
  r.1 = Ret tt
  ∧ w_calls r.2 =
      [MessagesSend 1 1
         (STATS [StatsLine 1 (lit "Ann") 4 0 false false false false]) None;
       MessagesSend 2 2 TOP_SENT_DM None]
  ∧ w_log r.2 = [LogSendFailed 1 RequestException].
Proof. vm_compute. repeat split; reflexivity. Qed.

(** When the private message goes through, the same two messages are
    sent. *)
Example handle_top_from_conversation :
  w_calls (handle_top [lit "1"] 1 2
             (sample_world {[7 := sample_row]} friendly_net)).2 =
  [MessagesSend 1 1
     (STATS [StatsLine 1 (lit "Ann") 4 0 false false false false]) None;
   MessagesSend 2 2 TOP_SENT_DM None].
Proof. vm_compute. reflexivity. Qed.

(** ** Facts about the Long Poll loop *)

Lemma lstrip_blank (s : pystr) : forallb py_isspace s = true -> lstrip s = [].
Proof.
  induction s as [|c s IH]; csimpl; [done|].
  intros [Hc Hs]%andb_prop. rewrite Hc. by apply IH.
Qed.

Lemma strip_blank (s : pystr) : forallb py_isspace s = true -> strip s = [].
Proof. intros Hs. unfold strip. by rewrite (lstrip_blank s Hs). Qed.

Example strip_sample :
  strip (lit "  /new  ") = lit "/new" ∧ strip (lit "   ") = [] ∧ strip [] = [].
Proof. repeat split; reflexivity. Qed.

Section longpoll_facts.
Variable GROUP_ID_INT : Z.
Variable ALLOWED_PEER_ID_INT : option Z.
Variable json_loads : pystr -> option json.
Variable handlers : command -> Z -> Z -> M unit.

Lemma get_longpoll_server_frame (w : world) :
  ∃ r logs,
    get_longpoll_server GROUP_ID_INT w =
      (r, World (w_db w) (w_random w) (w_net w)
            (w_calls w ++ [GroupsGetLongPollServer GROUP_ID_INT])
            (w_log w ++ logs) (w_slept w))
    ∧ r ≠ Diverged.
Proof.
  unfold get_longpoll_server, mbind at 1, M_bind at 1.
  destruct (vk_api_call_frame (GroupsGetLongPollServer GROUP_ID_INT) w)
    as (r & -> & Hr).
  destruct r as [resp|e|]; [|eexists _, []; by rewrite app_nil_r|done].
  unfold mbind, M_bind, lift, logger.
  pose proof (py_getitem_returns resp (lit "server")).
  pose proof (py_getitem_returns resp (lit "key")).
  pose proof (py_getitem_returns resp (lit "ts")).
  destruct (py_getitem resp (lit "server"));
    [|eexists _, []; by rewrite app_nil_r|done].
  destruct (py_getitem resp (lit "key"));
    [|eexists _, []; by rewrite app_nil_r|done].
  destruct (py_getitem resp (lit "ts"));
    [|eexists _, []; by rewrite app_nil_r|done].
  by eexists _, [_].
Qed.

(** A poll that breaks is recovered: the loop backs off and goes on,
    with a new server when the request for one succeeds and with the old
    one otherwise. *)
Lemma poll_failure_recovered (st : poll_state) (w : world) (e : exn) :
  w_net w (length (w_calls w))
    (LongPollCheck (server st) (key st) (ts st) LONGPOLL_WAIT) = inl e ->
  poll_error e = true ->
  ∃ st' w', loop_body GROUP_ID_INT ALLOWED_PEER_ID_INT json_loads handlers
              st w = (Ret st', w').
Proof.
  intros Hnet Herr. unfold loop_body, http. rewrite Hnet, Herr.
  unfold recover, mbind, M_bind, logger, sleep, try_except.
  match goal with |- context [get_longpoll_server _ ?w0] =>
    destruct (get_longpoll_server_frame w0) as (r & logs & -> & Hr) end.
  destruct r as [[[s k] t]|e2|]; [by eexists _, _..|done].
Qed.

(** The iteration after a poll that answered a dictionary with a
    ["failed"] field. *)
Lemma loop_body_failed
    (st : poll_state) (w : world) (items : list (pystr * json))
    (failed : json) :
  w_net w (length (w_calls w))
    (LongPollCheck (server st) (key st) (ts st) LONGPOLL_WAIT)
    = inr (JObj items) ->
  lookup_key (lit "failed") items = Some failed ->
  ∃ logs,
    let w1 :=
      World (w_db w) (w_random w) (w_net w)
        (w_calls w ++
           [LongPollCheck (server st) (key st) (ts st) LONGPOLL_WAIT])
        (w_log w ++ logs) (w_slept w) in
    loop_body GROUP_ID_INT ALLOWED_PEER_ID_INT json_loads handlers st w =
    if py_eq_int failed 1 then
      (Ret (PollState (server st) (key st)
              (default (ts st) (lookup_key (lit "ts") items))
              (cycle st + 1)), w1)
    else
      match get_longpoll_server GROUP_ID_INT w1 with
      | (Ret (s, k, t), w2) => (Ret (PollState s k t (cycle st + 1)), w2)
      | (Raise e, w2) => (Raise e, w2)
      | (Diverged, w2) => (Diverged, w2)
      end.
Proof.
  intros Hnet Hfailed. unfold loop_body, http. rewrite Hnet.
  unfold after_poll, mbind, M_bind, lift, logger.
  case_decide; csimpl; rewrite Hfailed; csimpl.
  - eexists [_; _]. rewrite <- app_assoc. csimpl.
    destruct (py_eq_int failed 1); [done|].
    by destruct (get_longpoll_server _ _) as [[[[s k] t]|e|] w2].
  - eexists [_].
    destruct (py_eq_int failed 1); [done|].
    by destruct (get_longpoll_server _ _) as [[[[s k] t]|e|] w2].
Qed.

(** C7. When a poll answers a dictionary with a ["failed"] field: if
    the code equals 1 the iteration asks for nothing more and the next
    poll uses the same server and key with the [ts] of the answer, or
    the old [ts] when the answer has none; for any other code the
    iteration requests a new server, and the next poll runs on the
    server, key and ts so obtained (an exception of that request leaves
    the loop before any other poll). *)
Theorem failed_response_handling
    (st : poll_state) (w : world) (items : list (pystr * json))
    (failed : json) :
  w_net w (length (w_calls w))
    (LongPollCheck (server st) (key st) (ts st) LONGPOLL_WAIT)
    = inr (JObj items) ->
  lookup_key (lit "failed") items = Some failed ->
  let poll := LongPollCheck (server st) (key st) (ts st) LONGPOLL_WAIT in
  let run := loop_body GROUP_ID_INT ALLOWED_PEER_ID_INT json_loads handlers
               st w in
  if py_eq_int failed 1 then
    run.1 = Ret (PollState (server st) (key st)
                   (default (ts st) (lookup_key (lit "ts") items))
                   (cycle st + 1))
    ∧ w_calls run.2 = w_calls w ++ [poll]
  else
    ∃ w1 fetched,
      w_calls w1 = w_calls w ++ [poll]
      ∧ get_longpoll_server GROUP_ID_INT w1 = (fetched, run.2)
      ∧ w_calls run.2 =
          w_calls w ++ [poll; GroupsGetLongPollServer GROUP_ID_INT]
      ∧ run.1 = match fetched with
                | Ret (s, k, t) => Ret (PollState s k t (cycle st + 1))
                | Raise e => Raise e
                | Diverged => Diverged
                end.
Proof.
  intros Hnet Hfailed poll run. subst poll run.
  destruct (loop_body_failed st w items failed Hnet Hfailed) as [logs Heq].
  csimpl in Heq. rewrite Heq. clear Heq.
  destruct (py_eq_int failed 1); [done|].
  match goal with |- context [get_longpoll_server _ ?w0] =>
    destruct (get_longpoll_server_frame w0) as (r & logs' & Hrun & Hr);
    exists w0, r end.
  rewrite Hrun. csimpl.
  destruct r as [[[s k] t]|e|]; csimpl;
    (repeat split; [done..|]); by rewrite <- app_assoc.
Qed.

(** C10. A [message_new] update whose text is missing, empty or made of
    whitespace alone meets the [continue] that follows the stripping of
    the text: the payload is not decoded and no handler runs, whatever
    the payload, the decoder and the handlers are; the world is left as
    it was. *)
Theorem blank_text_is_dropped
    (upd obj msg t : json) (s : pystr) (w : world) :
  py_get upd (lit "type") JNull = Ret (JStr (lit "message_new")) ->
  py_get upd (lit "object") (JObj []) = Ret obj ->
  py_get obj (lit "message") (JObj []) = Ret msg ->
  py_get msg (lit "text") JNull = Ret t ->
  py_or t (JStr []) = JStr s ->
  forallb py_isspace s = true ->
  accept_update ALLOWED_PEER_ID_INT upd = Ret None
  ∧ process_update ALLOWED_PEER_ID_INT json_loads handlers upd w
    = (Ret tt, w).
Proof.
  intros Hty Hobj Hmsg Htext Hor Hblank.
  assert (accept_update ALLOWED_PEER_ID_INT upd = Ret None) as Hacc.
  { unfold accept_update, message_text, mbind, outcome_bind, obind.
    rewrite Hty. csimpl. rewrite Hobj, Hmsg, Htext, Hor.
    by rewrite (strip_blank s Hblank). }
  split; [exact Hacc|].
  unfold process_update, mbind, M_bind, lift. by rewrite Hacc.
Qed.

End longpoll_facts.

Lemma failed_response_handling_witness :
  (loop_body 5 None no_json idle_handlers
     (PollState (JStr (lit "s")) (JStr (lit "k")) (JStr (lit "1")) 0)
     (sample_world ∅ (fun _ _ =>
        inr (JObj [(lit "failed", JInt 1); (lit "ts", JStr (lit "500"))])))).1
  = Ret (PollState (JStr (lit "s")) (JStr (lit "k")) (JStr (lit "500")) 1)
  ∧ w_calls
      (loop_body 5 None no_json idle_handlers
         (PollState (JStr (lit "s")) (JStr (lit "k")) (JStr (lit "1")) 0)
         (sample_world ∅ (fun _ _ =>
            inr (JObj [(lit "failed", JInt 1);
                       (lit "ts", JStr (lit "500"))])))).2
    = [LongPollCheck (JStr (lit "s")) (JStr (lit "k")) (JStr (lit "1")) 15].
Proof.
  exact (failed_response_handling 5 None no_json idle_handlers
           (PollState (JStr (lit "s")) (JStr (lit "k")) (JStr (lit "1")) 0)
           (sample_world ∅ (fun _ _ =>
              inr (JObj [(lit "failed", JInt 1);
                         (lit "ts", JStr (lit "500"))])))
           [(lit "failed", JInt 1); (lit "ts", JStr (lit "500"))] (JInt 1)
           eq_refl eq_refl).
Defined.

Lemma blank_text_is_dropped_witness :
  accept_update None (message_update (lit "   ")) = Ret None
  ∧ process_update None new_button_json failing_handlers
      (message_update (lit "   ")) (sample_world ∅ friendly_net)
    = (Ret tt, sample_world ∅ friendly_net).
Proof.
  apply (blank_text_is_dropped None new_button_json failing_handlers
           (message_update (lit "   "))
           (JObj [(lit "message", message_dict (lit "   "))])
           (message_dict (lit "   ")) (JStr (lit "   ")) (lit "   ")).
  - reflexivity.
  - reflexivity.
  - reflexivity.
  - reflexivity.
  - reflexivity.
  - reflexivity.
Defined.

(** With a text, the same button reaches the handler of [/new]. *)
Example button_with_text_is_routed :
  (process_update None new_button_json failing_handlers
     (message_update (lit "order")) (sample_world ∅ friendly_net)).1
  = Raise OSError
  ∧ (process_update None new_button_json idle_handlers
       (message_update (lit "   ")) (sample_world ∅ friendly_net)).1
    = Ret tt.
Proof. split; vm_compute; reflexivity. Qed.

(** The scenarios of the failed codes: code 1 keeps server and key, code 2
    fetches all three anew. *)
Example failed_two_refetches :
  let run := loop_body 5 None no_json idle_handlers
     (PollState (JStr (lit "s")) (JStr (lit "k")) (JStr (lit "1")) 0)
     (sample_world ∅ (fun n _ =>
        match n with
        | O => inr (JObj [(lit "failed", JInt 2)])
        | _ => inr (JObj [(lit "response",
                     JObj [(lit "server", JStr (lit "s2"));
                           (lit "key", JStr (lit "k2"));
                           (lit "ts", JStr (lit "9"))])])
        end)) in
  run.1 = Ret (PollState (JStr (lit "s2")) (JStr (lit "k2")) (JStr (lit "9")) 1)
  ∧ w_calls run.2 =
      [LongPollCheck (JStr (lit "s")) (JStr (lit "k")) (JStr (lit "1")) 15;
       GroupsGetLongPollServer 5].
Proof. vm_compute. split; reflexivity. Qed.

(** C8, on the code.  After a successful startup the first poll answers
    [{"failed": 2}] and the request for a new server then fails: the
    exception leaves [longpoll_loop], which issues no further poll,
    however long it is observed. *)
Theorem longpoll_loop_ends_on_failed_refetch (n : nat) :
  let run := longpoll_loop 5 None no_json idle_handlers (S n)
               (sample_world ∅ expired_key_net) in
  run.1 = Raise RequestException
  ∧ w_calls run.2 =
      [GroupsGetLongPollServer 5;
       LongPollCheck (JStr (lit "https://lp.vk.com")) (JStr (lit "k1"))
         (JStr (lit "1")) 15;
       GroupsGetLongPollServer 5]
  ∧ w_slept run.2 = [].
Proof. vm_compute. repeat split; reflexivity. Qed.

(** An exception of a command handler leaves the loop as well. *)
Example longpoll_loop_ends_on_handler_failure :
  (longpoll_loop 5 None no_json failing_handlers 3
     (sample_world ∅ new_command_net)).1 = Raise OSError.
Proof. vm_compute. reflexivity. Qed.

(** A poll that breaks does not: the loop sleeps and polls again. *)
Example longpoll_loop_survives_broken_polls :
  let run := longpoll_loop 5 None no_json idle_handlers 2
               (sample_world ∅ (fun n req =>
                  match req with
                  | LongPollCheck _ _ _ _ => inl RequestException
                  | _ => expired_key_net 0 req
                  end)) in
  (∃ st, run.1 = Ret st) ∧ w_slept run.2 = [3; 3].
Proof. vm_compute. split; [eexists|]; reflexivity. Qed.

(** * Further properties of the code *)

(** ** The order generator, for any catalog and any level *)

Section generator_more.
Variable cat : gmap Z (list dish).

Lemma greedy_step_head (taken : list dish) (d : dish) :
  taken ≠ [] -> head (greedy_step taken d) = head taken.
Proof.
  intros Hne. unfold greedy_step. case_decide; [|done].
  by destruct taken.
Qed.

Lemma greedy_fold_head (pool taken : list dish) :
  taken ≠ [] ->
  head (foldl greedy_step taken pool) = head taken
  ∧ foldl greedy_step taken pool ≠ [].
Proof.
  revert taken. induction pool as [|d pool IH]; intros taken Hne; [done|].
  csimpl.
  assert (greedy_step taken d ≠ []) as Hne'.
  { unfold greedy_step. case_decide; [|done]. by destruct taken. }
  destruct (IH _ Hne') as [Hh Hn]. split; [|done].
  by rewrite Hh, greedy_step_head.
Qed.

(** A pass of the backfill only appends dishes of level 0 that were not
    taken yet. *)
Lemma backfill_pass_inv (l0 taken : list dish) :
  NoDup taken ->
  NoDup (backfill_pass l0 taken)
  ∧ (∀ d, d ∈ backfill_pass l0 taken -> d ∈ taken ∨ d ∈ l0)
  ∧ (taken ≠ [] -> head (backfill_pass l0 taken) = head taken).
Proof.
  revert taken. induction l0 as [|d l0 IH]; intros taken Hnd; csimpl.
  { split; [done|]. split; [by left|done]. }
  set (taken' := if decide (d ∉ taken) then taken ++ [d] else taken).
  assert (NoDup taken') as Hnd'.
  { subst taken'. case_decide as Hc; [|done].
    apply NoDup_app. repeat split; [done| |apply NoDup_singleton].
    intros x Hx Hx'%list_elem_of_singleton. by subst. }
  assert (∀ x, x ∈ taken' -> x ∈ taken ∨ x = d) as Hsub.
  { subst taken'. intros x Hx. case_decide; [|by left].
    apply elem_of_app in Hx as [?|Hx]; [by left|].
    apply list_elem_of_singleton in Hx. by right. }
  assert (taken ≠ [] -> head taken' = head taken ∧ taken' ≠ []) as Hhead.
  { subst taken'. intros Hne. case_decide; [|done]. by destruct taken. }
  case_decide.
  - split; [done|]. split.
    + intros x Hx. destruct (Hsub x Hx) as [?| ->]; [by left|right; by left].
    + intros Hne. by apply Hhead.
  - destruct (IH taken' Hnd') as (H1 & H2 & H3). split; [done|]. split.
    + intros x Hx. destruct (H2 x Hx) as [Hin|Hin]; [|right; by right].
      destruct (Hsub x Hin) as [?| ->]; [by left|right; by left].
    + intros Hne. destruct (Hhead Hne) as [Hh Hn]. by rewrite H3, Hh.
Qed.

Lemma backfill_inv (fuel : nat) (taken r : list dish) :
  backfill cat fuel taken = Ret r ->
  NoDup taken ->
  NoDup r
  ∧ (∀ d, d ∈ r -> d ∈ taken ∨ ∃ l0, cat !! 0 = Some l0 ∧ d ∈ l0)
  ∧ (taken ≠ [] -> head r = head taken).
Proof.
  revert taken. induction fuel as [|fuel IH]; intros taken; csimpl.
  - case_decide; [discriminate|]. intros [= <-] Hnd.
    split; [done|]. split; [by left|done].
  - case_decide; [|intros [= <-] Hnd; split; [done|]; split; [by left|done]].
    destruct (cat !! 0) as [l0|] eqn:H0; [|discriminate].
    intros Hb Hnd.
    destruct (backfill_pass_inv l0 taken Hnd) as (H1 & H2 & H3).
    destruct (IH _ Hb H1) as (H4 & H5 & H6). split; [done|]. split.
    + intros d Hd. destruct (H5 d Hd) as [Hin|?]; [|by right].
      destruct (H2 d Hin) as [?|?]; [by left|right; eauto].
    + intros Hne. rewrite H6, H3; [done..|].
      intros Hnil. specialize (H3 Hne). rewrite Hnil in H3.
      by destruct taken.
Qed.

(** The list [take] after the greedy loop, for any level: it starts with
    the anchor, has no repetition, and holds the anchor and unlocked
    dishes only. *)
Lemma greedy_phase_any_level (L : Z) (g g' : rng) (taken : list dish) :
  greedy_phase cat L g = Ret (taken, g') ->
  ∃ pool0 cur,
    current_pool cat (Z.min L 3) = Ret pool0
    ∧ cur ∈ pool0
    ∧ head taken = Some cur
    ∧ NoDup taken
    ∧ ∀ d, d ∈ taken -> d = cur ∨ d ∈ opened_pool cat (Z.min L 3).
Proof.
  unfold greedy_phase.
  destruct (current_pool cat (Z.min L 3)) as [pool0| |] eqn:Hp;
    csimpl; try discriminate.
  destruct (random_choice pool0 g) as [[cur g1]| |] eqn:Hc;
    csimpl; try discriminate.
  pose proof (random_shuffle_perm
    (filter (fun d => d ≠ cur) (opened_pool cat (Z.min L 3))) g1) as Hperm.
  destruct (random_shuffle _ g1) as [pool g2]; csimpl in Hperm.
  intros [= <- <-]. exists pool0, cur.
  destruct (greedy_fold_inv pool [cur] (NoDup_singleton cur))
    as (H1 & _ & _ & H4 & _).
  destruct (greedy_fold_head pool [cur]) as [Hh _]; [done|].
  repeat split; [by eapply random_choice_elem|done|done|].
  intros d Hd. destruct (H4 d Hd) as [Hin|Hin].
  - left. by apply list_elem_of_singleton in Hin.
  - right. rewrite Hperm in Hin. by apply list_elem_of_filter in Hin as [_ ?].
Qed.

(** X1. Whatever the catalog, the level (negative ones included) and the
    randomness, an order that [generate_regular_order] returns has exactly
    three dishes, no two of them the same [(name, crosses)] pair, and each
    of them stands in the catalog at a level that is at most 3 and at most
    [max(level, 0)]: a dish of a level that is still locked is never
    served. *)
Theorem generated_order_is_three_unlocked_dishes
    (fuel : nat) (L : Z) (g g' : rng) (order : list dish) :
  generate_regular_order cat fuel L g = Ret (order, g') ->
  length order = 3%nat
  ∧ NoDup order
  ∧ ∀ d, d ∈ order ->
      ∃ lv ds, cat !! lv = Some ds ∧ d ∈ ds ∧ lv ≤ 3 ∧ lv ≤ Z.max L 0.
Proof.
  intros Hgen. split; [by eapply generate_regular_order_length|].
  unfold generate_regular_order in Hgen.
  destruct (greedy_phase cat L g) as [[taken g2]| |] eqn:Hg;
    csimpl in Hgen; try discriminate.
  destruct (backfill cat fuel taken) as [r| |] eqn:Hb;
    csimpl in Hgen; try discriminate.
  injection Hgen as <- <-.
  destruct (greedy_phase_any_level L g g2 taken Hg)
    as (pool0 & cur & Hp & Hcur & _ & Hnd & Hsub).
  destruct (backfill_inv fuel taken r Hb Hnd) as (Hnd' & Hsub' & _).
  split.
  - eapply sublist_NoDup; [exact Hnd'|]. apply sublist_take.
  - intros d Hd. apply subseteq_take in Hd.
    unfold current_pool in Hp.
    destruct (cat !! 0) as [l0|] eqn:H0; [|discriminate].
    injection Hp as <-.
    assert (∀ x, x ∈ l0 -> ∃ lv ds,
              cat !! lv = Some ds ∧ x ∈ ds ∧ lv ≤ 3 ∧ lv ≤ Z.max L 0) as Hl0.
    { intros x Hx. exists 0, l0. repeat split; [done..|lia|lia]. }
    assert (∀ x, x ∈ opened_pool cat (Z.min L 3) -> ∃ lv ds,
              cat !! lv = Some ds ∧ x ∈ ds ∧ lv ≤ 3 ∧ lv ≤ Z.max L 0) as Hop.
    { intros x Hx. apply elem_of_opened_pool in Hx as (lv & ds & ? & ? & ?).
      exists lv, ds. repeat split; [done..|lia|lia]. }
    destruct (Hsub' d Hd) as [Hin|(l0' & Hl & Hin)].
    + destruct (Hsub d Hin) as [->|?]; [|by apply Hop].
      destruct (cat !! Z.min L 3) as [ds|] eqn:Hc; csimpl in Hcur.
      * exists (Z.min L 3), ds. repeat split; [done..|lia|lia].
      * by apply Hl0.
    + apply Hl0. by simplify_eq.
Qed.

(** X2. The first dish of a returned order is the anchor: a dish of the
    pool of level [min(level, 3)], or of level 0 when the catalog has no
    such level. *)
Theorem generated_order_starts_with_anchor
    (fuel : nat) (L : Z) (g g' : rng) (order : list dish) :
  generate_regular_order cat fuel L g = Ret (order, g') ->
  ∃ l0 cur,
    cat !! 0 = Some l0
    ∧ cur ∈ default l0 (cat !! Z.min L 3)
    ∧ head order = Some cur.
Proof.
  intros Hgen. unfold generate_regular_order in Hgen.
  destruct (greedy_phase cat L g) as [[taken g2]| |] eqn:Hg;
    csimpl in Hgen; try discriminate.
  destruct (backfill cat fuel taken) as [r| |] eqn:Hb;
    csimpl in Hgen; try discriminate.
  injection Hgen as <- <-.
  destruct (greedy_phase_any_level L g g2 taken Hg)
    as (pool0 & cur & Hp & Hcur & Hhead & Hnd & _).
  destruct (backfill_inv fuel taken r Hb Hnd) as (_ & _ & Hh).
  unfold current_pool in Hp.
  destruct (cat !! 0) as [l0|] eqn:H0; [|discriminate].
  injection Hp as <-. exists l0, cur. repeat split; [done|].
  assert (taken ≠ []) as Hne by (by destruct taken).
  specialize (Hh Hne). rewrite Hhead in Hh.
  destruct r as [|x r]; [done|]. by csimpl in *.
Qed.

(** X3. The generator fails before any dish is chosen when the catalog is
    not usable: [KeyError] when it has no level 0, whatever the level
    asked for, and [IndexError] when the pool of the anchor is empty. *)
Theorem generate_regular_order_catalog_errors
    (fuel : nat) (L : Z) (g : rng) :
  (cat !! 0 = None ->
   generate_regular_order cat fuel L g = Raise KeyError)
  ∧ (∀ l0, cat !! 0 = Some l0 -> default l0 (cat !! Z.min L 3) = [] ->
     generate_regular_order cat fuel L g = Raise IndexError).
Proof.
  split.
  - intros H0. unfold generate_regular_order, greedy_phase, current_pool.
    by rewrite H0.
  - intros l0 H0 Hempty.
    unfold generate_regular_order, greedy_phase, current_pool.
    rewrite H0. csimpl. rewrite Hempty. done.
Qed.

End generator_more.

Lemma generated_order_is_three_unlocked_dishes_witness :
  length [(lit "pie", 40); (lit "jam", 30); (lit "tea", 10)] = 3%nat
  ∧ NoDup [(lit "pie", 40); (lit "jam", 30); (lit "tea", 10)]
  ∧ ∀ d, d ∈ [(lit "pie", 40); (lit "jam", 30); (lit "tea", 10)] ->
      ∃ lv ds, sample_catalog !! lv = Some ds ∧ d ∈ ds ∧ lv ≤ 3
               ∧ lv ≤ Z.max 1 0.
Proof.
  apply (generated_order_is_three_unlocked_dishes sample_catalog 0 1
           sample_rng (Rng (fun n => n) 3)).
  vm_compute. reflexivity.
Defined.

Lemma generated_order_starts_with_anchor_witness :
  ∃ l0 cur,
    sample_catalog !! 0 = Some l0
    ∧ cur ∈ default l0 (sample_catalog !! Z.min 1 3)
    ∧ head [(lit "pie", 40); (lit "jam", 30); (lit "tea", 10)] = Some cur.
Proof.
  apply (generated_order_starts_with_anchor sample_catalog 0 1
           sample_rng (Rng (fun n => n) 3)).
  vm_compute. reflexivity.
Defined.

Lemma generate_regular_order_catalog_errors_witness :
  generate_regular_order empty_catalog 0 2 sample_rng = Raise KeyError
  ∧ generate_regular_order bare_catalog 0 2 sample_rng = Raise IndexError.
Proof.
  split.
  - apply (proj1 (generate_regular_order_catalog_errors empty_catalog 0 2
                    sample_rng)).
    reflexivity.
  - apply (proj2 (generate_regular_order_catalog_errors bare_catalog 0 2
                    sample_rng) []); reflexivity.
Defined.

(** ** Special orders and the [/new] command *)

(** X4. The total announced by a half-new-order text is always
    [total // 2], and the values saved for the dishes never add up to less
    than it: when the minimum of one cross per dish stops the adjustment,
    the saved order is larger than the announced total. *)
Theorem half_new_order_announced_total (dishes : list dish) :
  (half_new_order dishes).2 = sum_crosses dishes / 2
  ∧ (half_new_order dishes).2 ≤ sum_crosses (half_new_order dishes).1.
Proof.
  unfold half_new_order. destruct dishes as [|[n0 c0] rest]; csimpl.
  { by rewrite sum_crosses_nil. }
  case_decide as Hne; csimpl.
  - split; [done|]. rewrite !sum_crosses_cons in *. csimpl in *. lia.
  - split; [exact Hne|done].
Qed.

(** X5. Doubling keeps the number of dishes and doubles the total: when
    the crosses stored with the last order are the sum of its dishes, the
    total announced by a double-previous text is the total of the dishes
    saved. *)
Theorem double_dishes_total (dishes : list dish) :
  length (double_dishes dishes) = length dishes
  ∧ sum_crosses (double_dishes dishes) = sum_crosses dishes * 2.
Proof.
  unfold double_dishes. split; [by rewrite length_fmap|].
  induction dishes as [|d l IH]; csimpl; [by rewrite sum_crosses_nil|].
  rewrite !sum_crosses_cons. csimpl. lia.
Qed.

Lemma save_active_order_other (db : gmap Z user_row) (uid k : Z)
    (dishes : list dish) (tag : option pystr) :
  k ≠ uid -> save_active_order db uid dishes tag !! k = db !! k.
Proof.
  intros Hne. unfold save_active_order. rewrite lookup_alter.
  case_decide; [congruence|done].
Qed.

Section order_more.
Variable cat : gmap Z (list dish).
Variable chk : Z -> user_flags -> option (pystr * order_config).
Variable fuel : nat.

(** X6. [_vk_new_order_logic] sends nothing and is all or nothing: when it
    returns a text it has saved exactly one active order, for the user it
    was called for, and left the rows of the other users alone; when it
    raises or does not return, the world is as it was before the call. *)
Theorem new_order_logic_saves_once
    (u : user) (uid : Z) (first_name : pystr) (w : world) :
  let run := _vk_new_order_logic cat chk fuel u uid first_name w in
  match run.1 with
  | Ret _ =>
      w_calls run.2 = w_calls w
      ∧ (∃ dishes tag,
           w_db run.2 = save_active_order (w_db w) (user_id u) dishes tag)
      ∧ ∀ k, k ≠ user_id u -> w_db run.2 !! k = w_db w !! k
  | _ => run.2 = w
  end.
Proof.
  assert (∀ name, let run := regular_order cat fuel u name w in
            match run.1 with
            | Ret _ =>
                w_calls run.2 = w_calls w
                ∧ (∃ dishes tag,
                     w_db run.2
                     = save_active_order (w_db w) (user_id u) dishes tag)
                ∧ ∀ k, k ≠ user_id u -> w_db run.2 !! k = w_db w !! k
            | _ => run.2 = w
            end) as Hreg.
  { intros name. csimpl. rewrite regular_order_run.
    destruct (generate_regular_order _ _ _ _) as [[dishes g]| |]; csimpl;
      [|done..].
    split; [done|]. split; [by eexists _, _|].
    intros k Hk. by apply save_active_order_other. }
  csimpl. unfold _vk_new_order_logic, mbind, M_bind, get_db.
  destruct (special_result chk u (w_db w)) as [[tag cfg]|]; [|apply Hreg].
  csimpl. repeat case_decide; try apply Hreg.
  - destruct (get_last_order (w_db w) (user_id u)) as [lo|]; [|apply Hreg].
    csimpl. split; [done|]. split; [by eexists _, _|].
    intros k Hk. by apply save_active_order_other.
  - rewrite generate_order_run.
    destruct (generate_regular_order _ _ _ _) as [[dishes g]| |]; csimpl;
      [|done..].
    destruct (half_new_order dishes) as [hd hc]. csimpl.
    split; [done|]. split; [by eexists _, _|].
    intros k Hk. by apply save_active_order_other.
  - destruct (oc_dish cfg) as [d|]; csimpl; [|done].
    split; [done|]. split; [by eexists _, _|].
    intros k Hk. by apply save_active_order_other.
Qed.

(** X7. A directive of type ["regular"] (the default when the
    configuration names no type) saves the one dish of the configuration
    under the tag of the directive, without running the generator or
    drawing a random number; a configuration without a dish raises
    [KeyError] and saves nothing. *)
Theorem fixed_dish_order
    (u : user) (uid : Z) (first_name : pystr) (w : world)
    (tag : pystr) (cfg : order_config) :
  special_result chk u (w_db w) = Some (tag, cfg) ->
  default (lit "regular") (oc_type cfg) = lit "regular" ->
  _vk_new_order_logic cat chk fuel u uid first_name w =
    match oc_dish cfg with
    | Some d =>
        (Ret (SPECIAL_ORDER_TEXT (oc_text_template cfg)
                (name_mention u uid first_name) None []),
         World (save_active_order (w_db w) (user_id u) [d] (Some tag))
           (w_random w) (w_net w) (w_calls w) (w_log w) (w_slept w))
    | None => (Raise KeyError, w)
    end.
Proof.
  intros Hs Hty. unfold _vk_new_order_logic, mbind, M_bind, get_db.
  rewrite Hs. csimpl. rewrite Hty.
  case_decide as H1; [by cbv in H1|].
  case_decide as H2; [by cbv in H2|].
  case_decide as H3; [|done].
  by destruct (oc_dish cfg).
Qed.

(** X8. A directive whose type is none of the three known ones produces
    no special order: the regular order is generated, as if
    [check_special_order] had answered nothing. *)
Theorem unknown_directive_falls_through
    (u : user) (uid : Z) (first_name : pystr) (w : world)
    (tag : pystr) (cfg : order_config) :
  special_result chk u (w_db w) = Some (tag, cfg) ->
  default (lit "regular") (oc_type cfg) ≠ lit "double_previous" ->
  default (lit "regular") (oc_type cfg) ≠ lit "half_new_order" ->
  default (lit "regular") (oc_type cfg) ≠ lit "regular" ->
  _vk_new_order_logic cat chk fuel u uid first_name w
  = regular_order cat fuel u (name_mention u uid first_name) w.
Proof.
  intros Hs H1 H2 H3. unfold _vk_new_order_logic, mbind, M_bind, get_db.
  rewrite Hs. csimpl. by repeat case_decide.
Qed.

(** X9. [/new] for a stored user without an active order, when no special
    order applies and the generator returns: the generated dishes are
    saved without a tag and the reply, sent to the conversation with the
    keyboard, lists these dishes, numbers the order [total_orders + 1] and
    gives the sum of their crosses as the total. *)
Theorem handle_new_regular_reply
    (uid peer_id : Z) (w : world) (r : user_row)
    (dishes : list dish) (g' : rng) :
  w_db w !! uid = Some r ->
  r_active r = None ->
  special_result chk (User uid r) (w_db w) = None ->
  generate_regular_order cat fuel (r_level r) (w_random w)
    = Ret (dishes, g') ->
  ∃ first_name random_id w',
    handle_new cat chk fuel uid peer_id w = (Ret tt, w')
    ∧ get_active_order (w_db w') uid = Some (ActiveOrder dishes None)
    ∧ w_calls w' =
        w_calls w ++
          [UsersGet uid;
           MessagesSend peer_id random_id
             (NEW_ORDER_MESSAGE (name_mention (User uid r) uid first_name)
                (r_total_orders r + 1) dishes (sum_crosses dishes))
             (Some build_main_keyboard)].
Proof.
  intros Hrow Hact Hs Hgen. unfold handle_new, mbind at 1, M_bind at 1.
  destruct (get_user_first_name_frame uid w) as (first_name & logs & ->).
  unfold mbind at 1, M_bind at 1, get_db. csimpl.
  unfold fetch_user. rewrite Hrow.
  unfold mbind at 1, M_bind at 1, set_db. csimpl.
  unfold get_active_order. rewrite Hrow. csimpl. rewrite Hact.
  unfold mbind at 1, M_bind at 1.
  rewrite logic_regular by done. rewrite regular_order_run. csimpl.
  rewrite Hgen.
  match goal with |- context [send_message ?p ?t ?k ?w0] =>
    destruct (send_message_frame p t k w0) as (rid & logs' & ->) end.
  csimpl. eexists first_name, rid, _. split; [done|]. csimpl. split.
  - apply get_active_order_save. by rewrite Hrow.
  - by rewrite <- app_assoc.
Qed.

(** X10. An exception of the generator (an empty pool, a catalog without
    level 0) escapes [handle_new]: the user is sent no reply and the store
    is left as it was. *)
Theorem handle_new_generator_failure
    (uid peer_id : Z) (w : world) (r : user_row) (e : exn) :
  w_db w !! uid = Some r ->
  r_active r = None ->
  special_result chk (User uid r) (w_db w) = None ->
  generate_regular_order cat fuel (r_level r) (w_random w) = Raise e ->
  ∃ w',
    handle_new cat chk fuel uid peer_id w = (Raise e, w')
    ∧ w_db w' = w_db w
    ∧ w_calls w' = w_calls w ++ [UsersGet uid].
Proof.
  intros Hrow Hact Hs Hgen. unfold handle_new, mbind at 1, M_bind at 1.
  destruct (get_user_first_name_frame uid w) as (first_name & logs & ->).
  unfold mbind at 1, M_bind at 1, get_db. csimpl.
  unfold fetch_user. rewrite Hrow.
  unfold mbind at 1, M_bind at 1, set_db. csimpl.
  unfold get_active_order. rewrite Hrow. csimpl. rewrite Hact.
  unfold mbind at 1, M_bind at 1.
  rewrite logic_regular by done. rewrite regular_order_run. csimpl.
  rewrite Hgen. by eexists.
Qed.

End order_more.

Lemma fixed_dish_order_witness :
  _vk_new_order_logic sample_catalog always_fixed 0 (User 7 sample_row) 7
    (lit "Ann") (sample_world {[7 := sample_row]} friendly_net)
  = (Ret (SPECIAL_ORDER_TEXT (lit "fixed")
            (name_mention (User 7 sample_row) 7 (lit "Ann")) None []),
     World (save_active_order {[7 := sample_row]} 7 [(lit "tart", 42)]
              (Some (lit "student")))
       sample_rng friendly_net [] [] []).
Proof.
  exact (fixed_dish_order sample_catalog always_fixed 0 (User 7 sample_row) 7
           (lit "Ann") (sample_world {[7 := sample_row]} friendly_net)
           (lit "student")
           (OrderConfig None (lit "fixed") (Some (lit "tart", 42)))
           eq_refl eq_refl).
Defined.

Lemma unknown_directive_falls_through_witness :
  _vk_new_order_logic sample_catalog always_strange 0 (User 7 sample_row) 7
    (lit "Ann") (sample_world {[7 := sample_row]} friendly_net)
  = regular_order sample_catalog 0 (User 7 sample_row)
      (name_mention (User 7 sample_row) 7 (lit "Ann"))
      (sample_world {[7 := sample_row]} friendly_net).
Proof.
  apply (unknown_directive_falls_through sample_catalog always_strange 0
           (User 7 sample_row) 7 (lit "Ann")
           (sample_world {[7 := sample_row]} friendly_net)
           (lit "vip") (OrderConfig (Some (lit "triple")) (lit "triple") None)).
  - reflexivity.
  - intros H. vm_compute in H. discriminate.
  - intros H. vm_compute in H. discriminate.
  - intros H. vm_compute in H. discriminate.
Defined.

Lemma handle_new_regular_reply_witness :
  ∃ first_name random_id w',
    handle_new sample_catalog never_special 0 7 2000000001
      (sample_world {[7 := sample_row]} friendly_net) = (Ret tt, w')
    ∧ get_active_order (w_db w') 7
      = Some (ActiveOrder [(lit "tea", 10); (lit "bun", 20); (lit "jam", 30)]
                None)
    ∧ w_calls w' =
        [UsersGet 7;
         MessagesSend 2000000001 random_id
           (NEW_ORDER_MESSAGE (name_mention (User 7 sample_row) 7 first_name)
              5 [(lit "tea", 10); (lit "bun", 20); (lit "jam", 30)] 60)
           (Some build_main_keyboard)].
Proof.
  exact (handle_new_regular_reply sample_catalog never_special 0 7 2000000001
           (sample_world {[7 := sample_row]} friendly_net) sample_row
           [(lit "tea", 10); (lit "bun", 20); (lit "jam", 30)]
           (Rng (fun n => n) 2) eq_refl eq_refl eq_refl eq_refl).
Defined.

Lemma handle_new_generator_failure_witness :
  ∃ w',
    handle_new bare_catalog never_special 0 7 2000000001
      (sample_world {[7 := sample_row]} friendly_net)
    = (Raise IndexError, w')
    ∧ w_db w' = {[7 := sample_row]}
    ∧ w_calls w' = [UsersGet 7].
Proof.
  exact (handle_new_generator_failure bare_catalog never_special 0 7
           2000000001 (sample_world {[7 := sample_row]} friendly_net)
           sample_row IndexError eq_refl eq_refl eq_refl eq_refl).
Defined.

(** ** Calls to the VK API *)

(** X11. [send_message] never raises and never touches the store: it
    issues exactly one [messages.send] to the given peer, with a
    [random_id] between 1 and [2**31 - 1], and logs at most one entry, the
    failure of that request. *)
Theorem send_message_never_raises
    (peer_id : Z) (message : text) (keyboard : option (list (list button)))
    (w : world) :
  ∃ random_id logs,
    send_message peer_id message keyboard w =
      (Ret tt,
       World (w_db w) (Rng (draws (w_random w)) (S (cursor (w_random w))))
         (w_net w)
         (w_calls w ++ [MessagesSend peer_id random_id message keyboard])
         (w_log w ++ logs) (w_slept w))
    ∧ 1 ≤ random_id ≤ 2 ^ 31 - 1
    ∧ (logs = [] ∨ ∃ e, logs = [LogSendFailed peer_id e]).
Proof.
  unfold send_message, try_except, mbind, M_bind, randint.
  match goal with |- context [vk_api_call ?req ?w'] =>
    destruct (vk_api_call_frame req w') as (r & -> & Hr) end.
  assert (∀ x, 1 ≤ 1 + x `mod` (2 ^ 31 - 1 - 1 + 1) ≤ 2 ^ 31 - 1) as Hb.
  { intros x. change (2 ^ 31) with 2147483648.
    pose proof (Z.mod_pos_bound x (2147483648 - 1 - 1 + 1) ltac:(lia)). lia. }
  csimpl. destruct r as [v|e|]; [|csimpl|done].
  - eexists _, []. rewrite app_nil_r. split; [done|]. split; [apply Hb|].
    by left.
  - eexists _, [_]. split; [done|]. split; [apply Hb|]. right. by eexists.
Qed.

(** X12. [vk_api_call] returns a value exactly when the body of the answer
    is a dictionary without an ["error"] key and with a ["response"] key,
    and the value is that response; a transport failure, an error body or
    any other body makes it raise. *)
Theorem vk_api_call_returns_response (req : request) (w : world) (v : json) :
  (vk_api_call req w).1 = Ret v
  ↔ ∃ body,
      w_net w (length (w_calls w)) req = inr (JObj body)
      ∧ lookup_key (lit "error") body = None
      ∧ lookup_key (lit "response") body = Some v.
Proof.
  unfold vk_api_call, mbind, M_bind, http, lift.
  destruct (w_net w (length (w_calls w)) req) as [e|data]; csimpl.
  { split; [done|]. by intros (body & ? & _). }
  destruct data as [| | | | |body]; csimpl;
    try (split; [done|]; by intros (body & ? & _)).
  - destruct (is_substring _ _); csimpl; (split; [done|]).
    all: by intros (body & ? & _).
  - destruct (existsb _ _); csimpl; (split; [done|]).
    all: by intros (body & ? & _).
  - destruct (lookup_key (lit "error") body) as [err|] eqn:Herr; csimpl.
    + split; [|intros (b & [= <-] & ? & _); congruence].
      destruct err; csimpl; done.
    + destruct (lookup_key (lit "response") body) as [resp|] eqn:Hresp.
      * split.
        -- intros [= <-]. by exists body.
        -- intros (b & [= <-] & _ & Hr). congruence.
      * split; [done|]. intros (b & [= <-] & _ & Hr). congruence.
Qed.

(** X13. [get_user_first_name] never raises and never touches the store:
    it issues one [users.get]; when that call fails, whatever the reason,
    the failure is logged and the name is "Гость". *)
Theorem get_user_first_name_falls_back (uid : Z) (w : world) :
  ∃ name logs,
    get_user_first_name uid w =
      (Ret name,
       World (w_db w) (w_random w) (w_net w) (w_calls w ++ [UsersGet uid])
         (w_log w ++ logs) (w_slept w))
    ∧ ∀ e, (vk_api_call (UsersGet uid) w).1 = Raise e ->
           name = GUEST ∧ logs = [LogUserInfoFailed uid e].
Proof.
  unfold get_user_first_name, try_except, mbind, M_bind.
  destruct (vk_api_call_frame (UsersGet uid) w) as (r & -> & Hr).
  destruct r as [resp|e|]; [|csimpl|done].
  - assert (∀ w', (mret GUEST : M pystr) w' = (Ret GUEST, w')) as Hret by done.
    destruct resp as [| | | |[|first rest]|];
      try (rewrite Hret; eexists _, []; rewrite app_nil_r; by split).
    unfold lift.
    destruct (py_get first (lit "first_name") JNull) as [name|e|] eqn:Hg.
    + eexists _, []. rewrite app_nil_r. by split.
    + eexists _, [_]. by split.
    + destruct first; discriminate.
  - eexists _, [_]. split; [done|]. by intros e' [= <-].
Qed.

(** A first name given by the API is the one used. *)
Example get_user_first_name_given :
  (get_user_first_name 7
     (sample_world ∅ (fun _ _ =>
        inr (JObj [(lit "response",
                    JArr [JObj [(lit "id", JInt 7);
                                (lit "first_name", JStr (lit "Ann"))]])])))).1
  = Ret (lit "Ann")
  ∧ (get_user_first_name 7 (sample_world ∅ rejecting_net)).1 = Ret GUEST
  ∧ (get_user_first_name 7 (sample_world ∅ friendly_net)).1 = Ret GUEST.
Proof. repeat split; vm_compute; reflexivity. Qed.

(** ** The Long Poll loop *)

Section longpoll_more.
Variable GROUP_ID_INT : Z.
Variable ALLOWED_PEER_ID_INT : option Z.
Variable json_loads : pystr -> option json.
Variable handlers : command -> Z -> Z -> M unit.

(** X14. [get_longpoll_server] returns a triple exactly when the API call
    returns a dictionary that has the keys ["server"], ["key"] and
    ["ts"], and the triple is made of their values; a response without
    one of them raises. *)
Theorem get_longpoll_server_returns_cursor (w : world) (s k t : json) :
  (get_longpoll_server GROUP_ID_INT w).1 = Ret (s, k, t)
  ↔ ∃ resp,
      (vk_api_call (GroupsGetLongPollServer GROUP_ID_INT) w).1
        = Ret (JObj resp)
      ∧ lookup_key (lit "server") resp = Some s
      ∧ lookup_key (lit "key") resp = Some k
      ∧ lookup_key (lit "ts") resp = Some t.
Proof.
  unfold get_longpoll_server, mbind at 1, M_bind at 1.
  destruct (vk_api_call_frame (GroupsGetLongPollServer GROUP_ID_INT) w)
    as (r & -> & Hr).
  csimpl. destruct r as [resp|e|]; csimpl;
    [|split; [done|]; by intros (? & ? & _)..].
  unfold mbind, M_bind, lift, logger.
  destruct resp as [| | | | |resp]; csimpl;
    try (split; [done|]; by intros (? & ? & _)).
  destruct (lookup_key (lit "server") resp) as [s'|] eqn:Hs; csimpl;
    [|split; [done|]; intros (? & [= <-] & ? & _); congruence].
  destruct (lookup_key (lit "key") resp) as [k'|] eqn:Hk; csimpl;
    [|split; [done|]; intros (? & [= <-] & ? & ? & _); congruence].
  destruct (lookup_key (lit "ts") resp) as [t'|] eqn:Ht; csimpl;
    [|split; [done|]; intros (? & [= <-] & ? & ? & ?); congruence].
  split.
  - intros [= <- <- <-]. by exists resp.
  - intros (? & [= <-] & ? & ? & ?). congruence.
Qed.

(** X15. A failure of the first [get_longpoll_server] is fatal: the
    exception leaves [longpoll_loop] before any poll is issued, however
    long the loop is observed. *)
Theorem startup_failure_is_fatal (w : world) (e : exn) (n : nat) :
  (get_longpoll_server GROUP_ID_INT w).1 = Raise e ->
  let run := longpoll_loop GROUP_ID_INT ALLOWED_PEER_ID_INT json_loads
               handlers n w in
  run.1 = Raise e
  ∧ w_calls run.2 = w_calls w ++ [GroupsGetLongPollServer GROUP_ID_INT]
  ∧ w_slept run.2 = w_slept w.
Proof.
  intros Hfail. csimpl. unfold longpoll_loop, mbind, M_bind.
  destruct (get_longpoll_server_frame GROUP_ID_INT w)
    as (r & logs & Heq & _).
  rewrite Heq in *. csimpl in Hfail. subst r. done.
Qed.

(** X16. A poll answered by a dictionary without ["failed"]: the updates
    are processed in the world reached after that one request, and only
    when they all went through does the iteration end with the same
    server and key, the [ts] of the answer (the old one when the answer
    has none) and the cycle count raised by one. *)
Theorem poll_with_updates
    (st : poll_state) (w : world) (body : list (pystr * json))
    (updates : list json) :
  w_net w (length (w_calls w))
    (LongPollCheck (server st) (key st) (ts st) LONGPOLL_WAIT)
    = inr (JObj body) ->
  lookup_key (lit "failed") body = None ->
  default (JArr []) (lookup_key (lit "updates") body) = JArr updates ->
  ∃ logs,
    loop_body GROUP_ID_INT ALLOWED_PEER_ID_INT json_loads handlers st w =
    match
      process_updates ALLOWED_PEER_ID_INT json_loads handlers updates
        (World (w_db w) (w_random w) (w_net w)
           (w_calls w ++
              [LongPollCheck (server st) (key st) (ts st) LONGPOLL_WAIT])
           (w_log w ++ logs) (w_slept w))
    with
    | (Ret _, w2) =>
        (Ret (PollState (server st) (key st)
                (default (ts st) (lookup_key (lit "ts") body))
                (cycle st + 1)), w2)
    | (Raise e, w2) => (Raise e, w2)
    | (Diverged, w2) => (Diverged, w2)
    end.
Proof.
  intros Hnet Hfailed Hupd. unfold loop_body, http. rewrite Hnet.
  unfold after_poll, mbind, M_bind, lift, logger.
  case_decide; csimpl; rewrite Hfailed; csimpl; rewrite Hupd; csimpl.
  - exists [LogHeartbeat (cycle st + 1)].
    by destruct (process_updates _ _ _ _ _) as [[[]| |] w2].
  - exists []. rewrite app_nil_r.
    by destruct (process_updates _ _ _ _ _) as [[[]| |] w2].
Qed.

(** What a request for a Long Poll server leaves behind: one call, and
    one log entry when it succeeded. *)
Lemma get_longpoll_server_run (w : world) :
  ∃ r,
    get_longpoll_server GROUP_ID_INT w =
      (r, World (w_db w) (w_random w) (w_net w)
            (w_calls w ++ [GroupsGetLongPollServer GROUP_ID_INT])
            (w_log w ++ match r with Ret _ => [LogObtainedServer] | _ => [] end)
            (w_slept w))
    ∧ r ≠ Diverged.
Proof.
  unfold get_longpoll_server, mbind at 1, M_bind at 1.
  destruct (vk_api_call_frame (GroupsGetLongPollServer GROUP_ID_INT) w)
    as (r & -> & Hr).
  destruct r as [resp|e|];
    [|exists (Raise e); csimpl; by rewrite app_nil_r|done].
  unfold mbind, M_bind, lift, logger.
  pose proof (py_getitem_returns resp (lit "server")).
  pose proof (py_getitem_returns resp (lit "key")).
  pose proof (py_getitem_returns resp (lit "ts")).
  destruct (py_getitem resp (lit "server")) as [s|e|];
    [|exists (Raise e); csimpl; by rewrite app_nil_r|done].
  destruct (py_getitem resp (lit "key")) as [k|e|];
    [|exists (Raise e); csimpl; by rewrite app_nil_r|done].
  destruct (py_getitem resp (lit "ts")) as [t|e|];
    [|exists (Raise e); csimpl; by rewrite app_nil_r|done].
  by exists (Ret (s, k, t)).
Qed.

(** X17. A poll that breaks with a [requests.RequestException] or a
    [json.JSONDecodeError] never ends the loop and never counts as a
    cycle: the loop logs the failure, sleeps 3 seconds and asks for a new
    server.  When that request succeeds the loop goes on with the server,
    key and ts it returned; when it fails too, the loop logs that
    failure, sleeps 5 more seconds and goes on with the old server, key
    and ts. *)
Theorem broken_poll_backs_off (st : poll_state) (w : world) (e : exn) :
  w_net w (length (w_calls w))
    (LongPollCheck (server st) (key st) (ts st) LONGPOLL_WAIT) = inl e ->
  poll_error e = true ->
  let backed_off :=
    World (w_db w) (w_random w) (w_net w)
      (w_calls w ++
         [LongPollCheck (server st) (key st) (ts st) LONGPOLL_WAIT])
      (w_log w ++ [LogPollBroken e]) (w_slept w ++ [3]) in
  let run := loop_body GROUP_ID_INT ALLOWED_PEER_ID_INT json_loads handlers
               st w in
  w_db run.2 = w_db w
  ∧ w_calls run.2 =
      w_calls w ++
        [LongPollCheck (server st) (key st) (ts st) LONGPOLL_WAIT;
         GroupsGetLongPollServer GROUP_ID_INT]
  ∧ match (get_longpoll_server GROUP_ID_INT backed_off).1 with
    | Ret (s, k, t) =>
        run.1 = Ret (PollState s k t (cycle st))
        ∧ w_log run.2 = w_log w ++ [LogPollBroken e; LogObtainedServer]
        ∧ w_slept run.2 = w_slept w ++ [3]
    | Raise e2 =>
        run.1 = Ret st
        ∧ w_log run.2 = w_log w ++ [LogPollBroken e; LogServerFailed e2]
        ∧ w_slept run.2 = w_slept w ++ [3; 5]
    | Diverged => False
    end.
Proof.
  intros Hnet Herr. csimpl. unfold loop_body, http. rewrite Hnet, Herr.
  unfold recover, mbind, M_bind, logger, sleep, try_except. csimpl.
  match goal with |- context [get_longpoll_server _ ?w0] =>
    destruct (get_longpoll_server_run w0) as (r & -> & Hr) end.
  csimpl. destruct r as [[[s k] t]|e2|]; csimpl; [| |done];
    rewrite <- !app_assoc; done.
Qed.

(** X18. The updates of a batch are processed one after the other, in the
    order of the array, and an exception raised for one of them leaves
    the following ones unprocessed. *)
Theorem process_updates_app (us1 us2 : list json) (w : world) :
  process_updates ALLOWED_PEER_ID_INT json_loads handlers (us1 ++ us2) w =
  match process_updates ALLOWED_PEER_ID_INT json_loads handlers us1 w with
  | (Ret _, w1) =>
      process_updates ALLOWED_PEER_ID_INT json_loads handlers us2 w1
  | (Raise e, w1) => (Raise e, w1)
  | (Diverged, w1) => (Diverged, w1)
  end.
Proof.
  revert w. induction us1 as [|upd us1 IH]; intros w; csimpl; [done|].
  unfold mbind, M_bind.
  destruct (process_update _ _ _ upd w) as [[[]|e|] w1]; [|done..].
  apply IH.
Qed.

(** X19. An update whose type is not ["message_new"] is skipped: nothing
    is logged, sent or stored. *)
Theorem other_update_is_skipped (upd ty : json) (w : world) :
  py_get upd (lit "type") JNull = Ret ty ->
  is_str (lit "message_new") ty = false ->
  process_update ALLOWED_PEER_ID_INT json_loads handlers upd w = (Ret tt, w).
Proof.
  intros Hty Hne.
  unfold process_update, accept_update, mbind, M_bind, lift, outcome_bind,
    obind.
  rewrite Hty. csimpl. by rewrite Hne.
Qed.

End longpoll_more.

(** X20. When a conversation is configured as the only allowed one, a
    message from any other conversation is dropped before it is logged or
    routed, whatever its text and its payload. *)
Theorem foreign_peer_is_dropped
    (allowed : Z) (json_loads : pystr -> option json)
    (handlers : command -> Z -> Z -> M unit)
    (upd obj msg peer : json) (text : pystr) (p : Z) (w : world) :
  py_get upd (lit "type") JNull = Ret (JStr (lit "message_new")) ->
  py_get upd (lit "object") (JObj []) = Ret obj ->
  py_get obj (lit "message") (JObj []) = Ret msg ->
  message_text msg = Ret text ->
  py_get msg (lit "peer_id") JNull = Ret peer ->
  as_int peer = Some p ->
  p ≠ allowed ->
  process_update (Some allowed) json_loads handlers upd w = (Ret tt, w).
Proof.
  intros Hty Hobj Hmsg Htext Hpeer Hint Hne.
  assert (accept_update (Some allowed) upd = Ret None) as Hacc.
  { unfold accept_update, mbind, outcome_bind, obind.
    rewrite Hty. csimpl. rewrite Hobj, Hmsg, Htext.
    case_decide; [done|].
    destruct msg as [| | | | |items]; try discriminate.
    csimpl in *. injection Hpeer as Hpeer. rewrite Hpeer, Hint.
    destruct (as_int (default JNull (lookup_key (lit "from_id") items)));
      csimpl; [|done].
    by rewrite decide_True. }
  unfold process_update, mbind, M_bind, lift. by rewrite Hacc.
Qed.

Lemma startup_failure_is_fatal_witness :
  (longpoll_loop 5 None no_json idle_handlers 3
     (sample_world ∅ broken_net)).1 = Raise RequestException
  ∧ w_calls (longpoll_loop 5 None no_json idle_handlers 3
               (sample_world ∅ broken_net)).2
    = [GroupsGetLongPollServer 5]
  ∧ w_slept (longpoll_loop 5 None no_json idle_handlers 3
               (sample_world ∅ broken_net)).2 = [].
Proof.
  exact (startup_failure_is_fatal 5 None no_json idle_handlers
           (sample_world ∅ broken_net) RequestException 3 eq_refl).
Defined.

Lemma poll_with_updates_witness :
  ∃ logs,
    loop_body 5 None no_json idle_handlers sample_state
      (sample_world ∅ quiet_net)
    = (Ret (PollState (JStr (lit "https://lp.vk.com")) (JStr (lit "k1"))
              (JStr (lit "7")) 1),
       World ∅ sample_rng quiet_net
         [LongPollCheck (JStr (lit "https://lp.vk.com")) (JStr (lit "k1"))
            (JStr (lit "1")) 15]
         ([] ++ logs) []).
Proof.
  exact (poll_with_updates 5 None no_json idle_handlers sample_state
           (sample_world ∅ quiet_net)
           [(lit "ts", JStr (lit "7")); (lit "updates", JArr [])] []
           eq_refl eq_refl eq_refl).
Defined.

Lemma broken_poll_backs_off_witness :
  w_db (loop_body 5 None no_json idle_handlers sample_state
          (sample_world ∅ broken_net)).2 = ∅
  ∧ w_calls (loop_body 5 None no_json idle_handlers sample_state
               (sample_world ∅ broken_net)).2
    = [LongPollCheck (JStr (lit "https://lp.vk.com")) (JStr (lit "k1"))
         (JStr (lit "1")) 15;
       GroupsGetLongPollServer 5]
  ∧ (loop_body 5 None no_json idle_handlers sample_state
       (sample_world ∅ broken_net)).1 = Ret sample_state
  ∧ w_log (loop_body 5 None no_json idle_handlers sample_state
             (sample_world ∅ broken_net)).2
    = [LogPollBroken RequestException; LogServerFailed RequestException]
  ∧ w_slept (loop_body 5 None no_json idle_handlers sample_state
               (sample_world ∅ broken_net)).2 = [3; 5].
Proof.
  exact (broken_poll_backs_off 5 None no_json idle_handlers sample_state
           (sample_world ∅ broken_net) RequestException eq_refl eq_refl).
Defined.

Lemma other_update_is_skipped_witness :
  process_update None new_button_json failing_handlers
    (JObj [(lit "type", JStr (lit "message_reply"))])
    (sample_world ∅ friendly_net)
  = (Ret tt, sample_world ∅ friendly_net).
Proof.
  exact (other_update_is_skipped None new_button_json failing_handlers
           (JObj [(lit "type", JStr (lit "message_reply"))])
           (JStr (lit "message_reply")) (sample_world ∅ friendly_net)
           eq_refl eq_refl).
Defined.

Lemma foreign_peer_is_dropped_witness :
  process_update (Some 1) new_button_json failing_handlers
    (message_update (lit "/new")) (sample_world ∅ friendly_net)
  = (Ret tt, sample_world ∅ friendly_net).
Proof.
  apply (foreign_peer_is_dropped 1 new_button_json failing_handlers
           (message_update (lit "/new"))
           (JObj [(lit "message", message_dict (lit "/new"))])
           (message_dict (lit "/new")) (JInt 2000000001) (lit "/new")
           2000000001).
  - reflexivity.
  - reflexivity.
  - reflexivity.
  - reflexivity.
  - reflexivity.
  - reflexivity.
  - lia.
Defined.

(** ** Routing of commands *)

Lemma lower_idemp (s : pystr) : lower (lower s) = lower s.
Proof.
  unfold lower. rewrite <- list_fmap_compose. apply list_fmap_ext.
  intros _ c _. csimpl.
  destruct (65 <=? c)%N eqn:H1, (c <=? 90)%N eqn:H2; csimpl;
    rewrite ?H1, ?H2; csimpl; try done.
  apply N.leb_le in H1, H2.
  destruct (65 <=? c + 32)%N eqn:H3, (c + 32 <=? 90)%N eqn:H4; csimpl;
    try done.
  apply N.leb_le in H4. lia.
Qed.

(** X21. Routing does not depend on the case of the letters [A-Z] of the
    text: a text and its lower-case form are routed alike. *)
Theorem route_ignores_case
    (cmd : option pystr) (text : pystr) (from_id peer_id : Z) :
  route cmd text from_id peer_id = route cmd (lower text) from_id peer_id.
Proof. unfold route. by rewrite lower_idemp. Qed.

(** X22. The "new order" button wins over the text that comes with it:
    when the sender and the conversation of an accepted message are
    integers and its payload decodes to a dictionary whose ["cmd"] is
    [new] in any case of letters, the message is logged and the handler
    of [/new] is called with this sender and this conversation, whatever
    the text says. *)
Theorem new_button_calls_handler
    (allowed : option Z) (json_loads : pystr -> option json)
    (handlers : command -> Z -> Z -> M unit)
    (upd msg : json) (text raw c : pystr) (items : list (pystr * json))
    (from_id peer_id : Z) (w : world) :
  accept_update allowed upd = Ret (Some (msg, text, from_id, peer_id)) ->
  py_get msg (lit "from_id") JNull = Ret (JInt from_id) ->
  py_get msg (lit "peer_id") JNull = Ret (JInt peer_id) ->
  py_get msg (lit "payload") JNull = Ret (JStr raw) ->
  json_loads raw = Some (JObj items) ->
  lookup_key (lit "cmd") items = Some (JStr c) ->
  lower c = lit "new" ->
  process_update allowed json_loads handlers upd w =
    handlers CmdNew from_id peer_id
      (World (w_db w) (w_random w) (w_net w) (w_calls w)
         (w_log w ++ [LogNewMessage from_id peer_id text]) (w_slept w)).
Proof.
  intros Hacc _ _ Hpay Hloads Hcmd Hlow.
  unfold process_update, mbind, M_bind, lift, logger. rewrite Hacc. csimpl.
  unfold payload_cmd, mbind, outcome_bind, obind.
  rewrite Hpay. csimpl. rewrite Hloads, Hcmd. csimpl.
  assert (c ≠ []) as Hne by (by intros ->).
  unfold py_or. csimpl. rewrite bool_decide_eq_true_2 by done. csimpl.
  rewrite Hlow. unfold route. by rewrite bool_decide_eq_true_2.
Qed.

Lemma new_button_calls_handler_witness :
  process_update None new_button_json failing_handlers
    (message_update (lit "hello")) (sample_world ∅ friendly_net)
  = failing_handlers CmdNew 7 2000000001
      (World ∅ sample_rng friendly_net []
         ([] ++ [LogNewMessage 7 2000000001 (lit "hello")]) []).
Proof.
  exact (new_button_calls_handler None new_button_json failing_handlers
           (message_update (lit "hello")) (message_dict (lit "hello"))
           (lit "hello") (lit "button") (lit "new")
           [(lit "cmd", JStr (lit "new"))] 7 2000000001
           (sample_world ∅ friendly_net)
           eq_refl eq_refl eq_refl eq_refl eq_refl eq_refl eq_refl).
Defined.

(** X23. A text that starts with [/top10] goes to the top-10 handler, not
    to the handler of [/top] of which it is an extension, unless a button
    sent one of the commands [new], [my] or [done]. *)
Theorem top10_is_not_top
    (cmd : option pystr) (text : pystr) (from_id peer_id : Z) :
  startswith (lower text) (lit "/top10") = true ->
  cmd ≠ Some (lit "new") -> cmd ≠ Some (lit "my") ->
  cmd ≠ Some (lit "done") ->
  route cmd text from_id peer_id = Invoke CmdTop10 from_id peer_id.
Proof.
  intros Hp H1 H2 H3. unfold route, startswith in *.
  rewrite !bool_decide_eq_false_2 by done.
  destruct (lower text) as [|c1 [|c2 [|c3 [|c4 [|c5 [|c6 l]]]]]];
    cbn in Hp;
    repeat (apply andb_prop in Hp as [?%bool_decide_eq_true Hp]);
    try discriminate.
  by subst.
Qed.

(** X24. A text that does not start with a slash, sent without one of the
    button commands [new], [my] or [done], is ignored: no handler is
    called and nothing is answered. *)
Theorem plain_text_is_ignored
    (cmd : option pystr) (text : pystr) (from_id peer_id : Z) :
  startswith (lower text) (lit "/") = false ->
  cmd ≠ Some (lit "new") -> cmd ≠ Some (lit "my") ->
  cmd ≠ Some (lit "done") ->
  route cmd text from_id peer_id = Ignore.
Proof.
  intros Hp H1 H2 H3. unfold route, startswith in *.
  rewrite !bool_decide_eq_false_2 by done.
  destruct (lower text) as [|c l]; [done|].
  cbn in Hp. rewrite andb_true_r in Hp.
  apply bool_decide_eq_false in Hp.
  cbn. rewrite !(bool_decide_eq_false_2 (47%N = c)) by done. done.
Qed.

Lemma top10_is_not_top_witness :
  route None (lit "/TOP10 please") 7 2000000001
  = Invoke CmdTop10 7 2000000001.
Proof.
  apply (top10_is_not_top None (lit "/TOP10 please") 7 2000000001);
    [reflexivity|discriminate..].
Defined.

Lemma plain_text_is_ignored_witness :
  route (Some (lit "help")) (lit "new order please") 7 2000000001 = Ignore.
Proof.
  apply (plain_text_is_ignored (Some (lit "help")) (lit "new order please")
           7 2000000001); [reflexivity|..].
  - intros H. vm_compute in H. discriminate.
  - intros H. vm_compute in H. discriminate.
  - intros H. vm_compute in H. discriminate.
Defined.

(** The routes of the other texts. *)
Example route_samples :
  route None (lit "/Start") 7 8 = Invoke CmdStart 7 8
  ∧ route None (lit "/top") 7 8 = Invoke CmdTop 7 8
  ∧ route None (lit "/news") 7 8 = Invoke CmdNew 7 8
  ∧ route (Some (lit "my")) (lit "/new") 7 8 = Invoke CmdNew 7 8
  ∧ route (Some (lit "done")) (lit "ok") 7 8 = Invoke CmdDone 7 8
  ∧ route None (lit "/help") 7 8 = ReplyUnknown 8.
Proof. repeat split; reflexivity. Qed.

(** ** The admin statistics *)

#[local] Instance stats_before_total : Total stats_before.
Proof. intros r1 r2. unfold stats_before. lia. Qed.

#[local] Instance stats_before_trans : Transitive stats_before.
Proof. intros r1 r2 r3. unfold stats_before. lia. Qed.

Lemma select_stats_nil (db : gmap Z user_row) : select_stats db = [] ↔ db = ∅.
Proof.
  unfold select_stats. split.
  - intros Hnil. apply map_to_list_empty_iff.
    apply (fmap_nil_inv snd). apply Permutation_nil_r.
    by rewrite <- (merge_sort_Permutation stats_before), Hnil.
  - intros ->. by rewrite map_to_list_empty.
Qed.

(** X25. The rows fetched for the statistics are the rows of all users,
    each once, ordered by decreasing number of orders and, for equal
    numbers, by decreasing level. *)
Theorem select_stats_sorted (db : gmap Z user_row) :
  select_stats db ≡ₚ (map_to_list db).*2
  ∧ StronglySorted stats_before (select_stats db)
  ∧ length (select_stats db) = size db.
Proof.
  unfold select_stats. split; [apply merge_sort_Permutation|]. split.
  - apply StronglySorted_merge_sort; apply _.
  - rewrite merge_sort_Permutation, length_fmap.
    apply length_map_to_list.
Qed.

(** X26. The table has one line per row, in the order of the rows,
    numbered from 1 without a gap; a line shows the name, the orders and
    the level of its row. *)
Theorem stats_lines_numbered (rows : list user_row) :
  length (stats_lines 1 rows) = length rows
  ∧ ∀ (i : nat) (line : stats_line),
      stats_lines 1 rows !! i = Some line ->
      sl_num line = Z.of_nat i + 1
      ∧ ∃ r, rows !! i = Some r
             ∧ sl_name line = r_first_name r
             ∧ sl_orders line = r_total_orders r
             ∧ sl_level line = r_level r.
Proof.
  assert (∀ start, length (stats_lines start rows) = length rows) as Hlen.
  { induction rows as [|r rows IH]; intros s; csimpl; [done|].
    by rewrite IH. }
  split; [apply Hlen|]. clear Hlen.
  assert (∀ start (i : nat) line,
            stats_lines start rows !! i = Some line ->
            sl_num line = Z.of_nat i + start
            ∧ ∃ r, rows !! i = Some r
                   ∧ sl_name line = r_first_name r
                   ∧ sl_orders line = r_total_orders r
                   ∧ sl_level line = r_level r) as Hgen.
  { induction rows as [|r rows IH]; intros s i line; csimpl; [done|].
    destruct i as [|i]; csimpl.
    - intros [= <-]. csimpl. split; [lia|]. by exists r.
    - intros Hl. destruct (IH _ _ _ Hl) as [Hn Hr]. split; [lia|done]. }
  intros i line Hl. by apply Hgen.
Qed.

Section admin_more.
Variable ADMIN_IDS : list pystr.

(** X27. A user who is not an admin gets the "admins only" text in the
    conversation he wrote in, after the lookup of his first name; the
    statistics are not sent and the store is not touched. *)
Theorem handle_top_refuses_others (uid peer_id : Z) (w : world) :
  is_admin ADMIN_IDS (str_of_int uid) = false ->
  ∃ first_name random_id w',
    handle_top ADMIN_IDS uid peer_id w = (Ret tt, w')
    ∧ w_db w' = w_db w
    ∧ w_calls w' =
        w_calls w ++
          [UsersGet uid;
           MessagesSend peer_id random_id
             (ADMIN_ONLY (format_vk_user_mention uid first_name)) None].
Proof.
  intros Hadmin. unfold handle_top. rewrite Hadmin. csimpl.
  unfold mbind, M_bind.
  destruct (get_user_first_name_frame uid w) as (first_name & logs & ->).
  match goal with |- context [send_message ?p ?t ?k ?w0] =>
    destruct (send_message_frame p t k w0) as (rid & logs' & ->) end.
  csimpl. eexists first_name, rid, _. split; [done|]. csimpl.
  split; [done|]. by rewrite <- app_assoc.
Qed.

(** X28. An admin who asks in a private chat gets one message and no
    acknowledgment: the table, or the "empty database" text when there is
    no user at all. *)
Theorem handle_top_in_private (uid : Z) (w : world) :
  is_admin ADMIN_IDS (str_of_int uid) = true ->
  ∃ random_id w',
    handle_top ADMIN_IDS uid uid w = (Ret tt, w')
    ∧ w_calls w' =
        w_calls w ++
          [MessagesSend uid random_id
             (if decide (w_db w = ∅) then EMPTY_DB
              else STATS (stats_lines 1 (select_stats (w_db w))))
             None].
Proof.
  intros Hadmin. unfold handle_top. rewrite Hadmin. csimpl.
  unfold mbind, M_bind, get_db.
  pose proof (select_stats_nil (w_db w)) as Hnil.
  destruct (select_stats (w_db w)) as [|r rows] eqn:Hrows.
  - destruct (send_to_admin_never_notifies uid uid EMPTY_DB w)
      as (rid1 & rid2 & w' & Hrun & Hcalls).
    exists rid1, w'. split; [done|]. rewrite Hcalls.
    rewrite decide_False by (by intros H; apply H).
    rewrite decide_True by (by apply Hnil). done.
  - destruct (send_to_admin_never_notifies uid uid
                (STATS (stats_lines 1 (r :: rows))) w)
      as (rid1 & rid2 & w' & Hrun & Hcalls).
    exists rid1, w'. split; [done|]. rewrite Hcalls.
    rewrite decide_False by (by intros H; apply H).
    rewrite decide_False; [done|].
    intros Hempty. apply Hnil in Hempty. discriminate.
Qed.

End admin_more.

Lemma handle_top_refuses_others_witness :
  ∃ first_name random_id w',
    handle_top [lit "1"] 7 2000000001
      (sample_world {[7 := sample_row]} friendly_net) = (Ret tt, w')
    ∧ w_db w' = {[7 := sample_row]}
    ∧ w_calls w' =
        [UsersGet 7;
         MessagesSend 2000000001 random_id
           (ADMIN_ONLY (format_vk_user_mention 7 first_name)) None].
Proof.
  exact (handle_top_refuses_others [lit "1"] 7 2000000001
           (sample_world {[7 := sample_row]} friendly_net) eq_refl).
Defined.

Lemma handle_top_in_private_witness :
  ∃ random_id w',
    handle_top [lit "1"] 1 1 (sample_world ∅ friendly_net) = (Ret tt, w')
    ∧ w_calls w' =
        [] ++
        [MessagesSend 1 random_id
           (if decide ((∅ : gmap Z user_row) = ∅) then EMPTY_DB
            else STATS (stats_lines 1 (select_stats ∅)))
           None].
Proof.
  exact (handle_top_in_private [lit "1"] 1 (sample_world ∅ friendly_net)
           eq_refl).
Defined.

(** ** The list of admins ([config.py]) *)

Lemma lstrip_suffix (s : pystr) : ∃ k, s = k ++ lstrip s.
Proof.
  induction s as [|c s [k IH]]; [by exists []|]. csimpl.
  destruct (py_isspace c); [|by exists []].
  exists (c :: k). csimpl. by rewrite <- IH.
Qed.

Lemma lstrip_idemp (s : pystr) : lstrip (lstrip s) = lstrip s.
Proof.
  induction s as [|c s IH]; [done|]. csimpl.
  destruct (py_isspace c) eqn:Hc; [done|]. csimpl. by rewrite Hc.
Qed.

Lemma lstrip_fixed_head (c : N) (s : pystr) :
  lstrip (c :: s) = c :: s -> py_isspace c = false.
Proof.
  csimpl. destruct (py_isspace c); [|done]. intros Heq.
  destruct (lstrip_suffix s) as [k Hk].
  apply (f_equal length) in Heq. rewrite Hk in Heq at 2.
  csimpl in Heq. rewrite length_app in Heq. lia.
Qed.

(** A stripped text has no white space left at either end. *)
Lemma strip_idemp (s : pystr) : strip (strip s) = strip s.
Proof.
  unfold strip. set (y := lstrip s).
  assert (lstrip y = y) as Hy by apply lstrip_idemp.
  set (z := lstrip (reverse y)).
  assert (lstrip z = z) as Hz by apply lstrip_idemp.
  assert (lstrip (reverse z) = reverse z) as Hrz.
  { destruct (lstrip_suffix (reverse y)) as [k Hk]. fold z in Hk.
    apply (f_equal reverse) in Hk.
    rewrite reverse_involutive, reverse_app in Hk.
    destruct (reverse z) as [|a t] eqn:Hr; [done|].
    rewrite Hk in Hy. csimpl in Hy.
    apply lstrip_fixed_head in Hy. csimpl. by rewrite Hy. }
  by rewrite Hrz, reverse_involutive, Hz.
Qed.

Lemma elem_of_lstrip (c : N) (s : pystr) : c ∈ lstrip s -> c ∈ s.
Proof.
  destruct (lstrip_suffix s) as [k Hk]. intros Hc. rewrite Hk.
  apply elem_of_app. by right.
Qed.

Lemma elem_of_strip (c : N) (s : pystr) : c ∈ strip s -> c ∈ s.
Proof.
  unfold strip. rewrite elem_of_reverse. intros Hc.
  apply elem_of_lstrip in Hc. rewrite elem_of_reverse in Hc.
  by apply elem_of_lstrip.
Qed.

Lemma split_on_pieces (sep : N) (s : pystr) (piece : pystr) :
  piece ∈ split_on sep s -> sep ∉ piece.
Proof.
  revert piece. induction s as [|c s IH]; intros piece; csimpl.
  { intros ->%list_elem_of_singleton. apply not_elem_of_nil. }
  case_decide as Hc.
  - intros [->|Hin]%elem_of_cons; [apply not_elem_of_nil|by apply IH].
  - destruct (split_on sep s) as [|p ps].
    + intros ->%list_elem_of_singleton.
      intros ->%list_elem_of_singleton. done.
    + intros [->|Hin]%elem_of_cons.
      * intros [->|Hp]%elem_of_cons; [done|].
        apply (IH p); [by left|done].
      * apply IH. by right.
Qed.

(** X29. Every entry of [ADMIN_IDS] is a piece of the configured string
    between two commas with the white space around it removed: it is not
    empty, holds no comma and has no white space at either end.  A string
    that is empty yields no admin. *)
Theorem parse_admin_ids_entries (ADMIN_IDS_STR aid : pystr) :
  aid ∈ parse_admin_ids ADMIN_IDS_STR ->
  ADMIN_IDS_STR ≠ []
  ∧ aid ≠ []
  ∧ (44%N ∉ aid)
  ∧ strip aid = aid
  ∧ ∃ piece, piece ∈ split_on 44 ADMIN_IDS_STR ∧ aid = strip piece.
Proof.
  unfold parse_admin_ids. case_decide as Hne; [|by intros ?%elem_of_nil].
  intros [Haid Hin]%list_elem_of_filter.
  apply list_elem_of_fmap in Hin as (piece & -> & Hpiece).
  repeat split; [done..| | |by exists piece].
  - intros Hc%elem_of_strip.
    by apply (split_on_pieces 44 ADMIN_IDS_STR piece).
  - apply strip_idemp.
Qed.

Lemma parse_admin_ids_entries_witness :
  lit " 12 , 345,, " ≠ []
  ∧ lit "345" ≠ []
  ∧ (44%N ∉ lit "345")
  ∧ strip (lit "345") = lit "345"
  ∧ ∃ piece, piece ∈ split_on 44 (lit " 12 , 345,, ")
             ∧ lit "345" = strip piece.
Proof.
  apply (parse_admin_ids_entries (lit " 12 , 345,, ") (lit "345")).
  vm_compute. apply elem_of_cons. right. apply elem_of_cons. by left.
Defined.

Example parse_admin_ids_sample :
  parse_admin_ids (lit " 12 , 345,, ") = [lit "12"; lit "345"]
  ∧ parse_admin_ids (lit "") = []
  ∧ parse_admin_ids (lit " , ,") = []
  ∧ is_admin (parse_admin_ids (lit " 12 , 345,, ")) (str_of_int 345) = true
  ∧ is_admin (parse_admin_ids (lit " 12 , 345,, ")) (str_of_int 34) = false.
Proof. repeat split; vm_compute; reflexivity. Qed.
